(** * Tokenization utilities of haystack/modeling/model/tokenization.py

    A shallow embedding of the module and the properties proved about it.

    Conventions of the embedding.
    - A Python [str] is the list of its Unicode code points ([list N]);
      [str "..."] turns an ASCII literal into that form.  [len] of a string is
      the length of the list, as in Python 3.
    - A Python [int] is a [Z].  [len(x)] is [Z.of_nat (length x)].
    - A computation is a pair of the trace of calls it made into code outside
      the module (the transformers library, the logger) and its outcome:
      a value or a raised exception.  [try]/[except] is written out with
      [try_except].
    - Names the module reads from its global scope are looked up in the table
      of the names the module binds ([module_globals]); a name that is not
      bound raises [NameError], a local read before assignment raises
      [UnboundLocalError].
    - The tables imported from [haystack.modeling.model._mappings] and the
      entry points of the transformers library are the fields of [Env] and
      of [Tokenizer]: the module is verified for every value of them. *)

From Stdlib Require Import ZArith NArith List String Ascii Lia DecimalString DecimalZ.
From stdpp Require Import base option list gmap strings.

Local Open Scope Z_scope.

(** ** Strings *)

Abbreviation pystr := (list N).

Definition str (s : string) : pystr :=
  map N_of_ascii (list_ascii_of_string s).

(** ** Python values that appear as arguments, dictionary values and flags *)

Inductive pyval : Type :=
| VNone
| VBool (b : bool)
| VInt (z : Z)
| VStr (s : pystr).

Definition truthy (v : pyval) : bool :=
  match v with
  | VNone => false
  | VBool b => b
  | VInt z => negb (z =? 0)
  | VStr s => negb (bool_decide (s = []))
  end.

(** [x or False] *)
Definition or_False (v : pyval) : pyval :=
  if truthy v then v else VBool false.

(** [str(i)] of an integer, as an f-string formats it. *)
Definition str_of_int (i : Z) : pystr :=
  str (NilEmpty.string_of_int (Z.to_int i)).

(** [f"{v}"] *)
Definition format_pyval (v : pyval) : pystr :=
  match v with
  | VNone => str "None"
  | VBool true => str "True"
  | VBool false => str "False"
  | VInt z => str_of_int z
  | VStr s => s
  end.

(** ** Exceptions *)

Inductive exn : Type :=
| OSError
| NameError (name : string)
| UnboundLocalError (name : string)
| NotImplementedError (msg : string)
| ValueError
| AssertionError
| IndexError
| KeyError
| TypeError
| AttributeError
| ModelingError (msg : string) (cause : exn)
| LibraryError (cls : string)
| OSErrorSubclass (cls : string).

(** The classes of the standard library that are [OSError] or derive from
    it. *)
Definition python_OSError_classes : list string :=
  [ "OSError"; "EnvironmentError"; "IOError"; "WindowsError";
    "BlockingIOError"; "ChildProcessError"; "ConnectionError";
    "BrokenPipeError"; "ConnectionAbortedError"; "ConnectionRefusedError";
    "ConnectionResetError"; "FileExistsError"; "FileNotFoundError";
    "InterruptedError"; "IsADirectoryError"; "NotADirectoryError";
    "PermissionError"; "ProcessLookupError"; "TimeoutError" ]%string.

(** [except OSError] catches [OSError] and every class that derives from
    it.  [LibraryError cls] is an exception of the class named [cls], either
    one of the standard library's classes above or a class that does not
    derive from [OSError]; the exception of any other class derived from
    [OSError] (those of requests, urllib, the hub) is an
    [OSErrorSubclass cls].  Every constructor is a subclass of [Exception],
    so [except Exception] catches them all. *)
Definition is_OSError (e : exn) : bool :=
  match e with
  | OSError => true
  | OSErrorSubclass _ => true
  | LibraryError cls => bool_decide (cls ∈ python_OSError_classes)
  | _ => false
  end.

Inductive outcome (A : Type) : Type :=
| Ok (a : A)
| Raise (e : exn).
Arguments Ok {A} a.
Arguments Raise {A} e.

(** ** Calls that leave the module *)

Inductive call : Type :=
| AutoConfig_from_pretrained (path : pystr) (use_auth_token : pyval)
| logger_warning (msg : string)
| logger_debug (msg : pystr)
| logger_info (idx : Z)
| call_attr (obj attr : string) (arg : pystr)
| class_from_pretrained (cls path : pystr) (use_auth_token revision : pyval)
    (kw : list (string * pyval))
| tokenizer_tokenize (w : pystr) (add_prefix_space : bool)
| tokenizer_encode_plus (text : pystr) (add_special_tokens : bool)
| tokenizer_batch_encode_plus (texts : list pystr)
| tokenizer_num_special_tokens_to_add (pair : bool)
| tokenizer_truncate_sequences
    (num_tokens_to_remove : Z) (truncation_strategy : pystr) (stride : Z).

(** ** The monad: a trace of calls and an outcome *)

Definition M (A : Type) : Type := (list call * outcome A)%type.

Definition ret {A} (a : A) : M A := ([], Ok a).
Definition raise {A} (e : exn) : M A := ([], Raise e).

Definition bind {A B} (m : M A) (k : A -> M B) : M B :=
  match m with
  | (t, Ok a) => let '(t', r) := k a in (t ++ t', r)
  | (t, Raise e) => (t, Raise e)
  end.

Notation "'let*' x ':=' m 'in' k" :=
  (bind m (fun x => k))
  (at level 10, x pattern, m at level 100, k at level 200).
Notation "m ';;' k" :=
  (bind m (fun _ => k))
  (at level 100, k at level 200, right associativity).

(** A call into outside code: it is recorded and yields what that code
    yields. *)
Definition extern {A} (c : call) (r : outcome A) : M A := ([c], r).

(** Lift an outcome computed without calls. *)
Definition lift {A} (r : outcome A) : M A := ([], r).

(** [try: body except <catches> as e: handler e]. *)
Definition try_except {A} (body : M A) (catches : exn -> bool)
    (handler : exn -> M A) : M A :=
  match body with
  | (t, Ok a) => (t, Ok a)
  | (t, Raise e) =>
      if catches e then let '(t', r) := handler e in (t ++ t', r)
      else (t, Raise e)
  end.

Definition trace {A} (m : M A) : list call := fst m.
Definition result {A} (m : M A) : outcome A := snd m.

(** [for x in xs: acc = body acc x], stopping at the first exception. *)
Fixpoint for_each {A S} (xs : list A) (body : S -> A -> M S) (acc : S) : M S :=
  match xs with
  | [] => ret acc
  | x :: xs' => let* acc' := body acc x in for_each xs' body acc'
  end.

(** ** The tokenizer object of the transformers library *)

Record Encoding : Type := {
  words : list (option Z);
  tokens : list pystr
}.

(** Result of [encode_plus] on one text. *)
Record BatchEncoding : Type := {
  input_ids : list Z;
  offset_mapping : list (Z * Z);
  encodings : list Encoding
}.

(** Result of [batch_encode_plus] on a list of texts. *)
Record BatchEncodings : Type := {
  batch_input_ids : list (list Z);
  batch_offset_mapping : list (list (Z * Z));
  batch_encodings : list Encoding
}.

Record Tokenizer : Type := {
  tok_type : string;
  is_fast : bool;
  special_tokens_map : gmap pystr pystr;
  tokenize : pystr -> bool -> outcome (list pystr);
  encode_plus : pystr -> bool -> outcome BatchEncoding;
  batch_encode_plus : list pystr -> outcome BatchEncodings;
  num_special_tokens_to_add : bool -> Z;
  lib_truncate_sequences :
    forall A : Type, list A -> option (list A) -> Z -> pystr -> Z ->
      outcome (list A * option (list A) * list A)
}.

Definition len {A} (l : list A) : Z := Z.of_nat (length l).

(** ** truncate_sequences *)

Definition is_truncate_call (c : call) : bool :=
  match c with tokenizer_truncate_sequences _ _ _ => true | _ => false end.

Definition total_len {A} (seq_a : list A) (seq_b : option (list A))
    (tokenizer : Tokenizer) (with_special_tokens : bool) : Z :=
  let pair := bool_decide (is_Some seq_b) in
  let len_a := len seq_a in
  let len_b := match seq_b with Some b => len b | None => 0 end in
  let num_special_tokens :=
    if with_special_tokens then num_special_tokens_to_add tokenizer pair else 0 in
  len_a + len_b + num_special_tokens.

Definition truncate_sequences {A} (seq_a : list A) (seq_b : option (list A))
    (tokenizer : Tokenizer) (max_seq_len : Z) (truncation_strategy : pystr)
    (with_special_tokens : bool) (stride : Z)
  : M (list A * option (list A) * list A) :=
  let pair := bool_decide (is_Some seq_b) in
  let len_a := len seq_a in
  let len_b := match seq_b with Some b => len b | None => 0 end in
  let* num_special_tokens :=
    (if with_special_tokens
     then extern (tokenizer_num_special_tokens_to_add pair)
                 (Ok (num_special_tokens_to_add tokenizer pair))
     else ret 0) in
  let total_len := len_a + len_b + num_special_tokens in
  if negb (max_seq_len =? 0) && (max_seq_len <? total_len)
  then extern (tokenizer_truncate_sequences
                 (total_len - max_seq_len) truncation_strategy stride)
              (lib_truncate_sequences tokenizer A seq_a seq_b
                 (total_len - max_seq_len) truncation_strategy stride)
  else ret (seq_a, seq_b, []).

(** ** Substring test, [key in s] on strings *)

Fixpoint startswith (p s : pystr) : bool :=
  match p, s with
  | [], _ => true
  | _ :: _, [] => false
  | a :: p', b :: s' => (a =? b)%N && startswith p' s'
  end.

Fixpoint contains (s key : pystr) : bool :=
  startswith key s ||
  match s with
  | [] => false
  | _ :: s' => contains s' key
  end.

(** ** The names bound at module level

    The module binds the names of its import statements, of its two module
    level assignments and of its seven functions, and no other.  A global
    read looks the name up in this table (neither name read that way in the
    module is a builtin); the value stands for the object bound. *)

Definition module_globals : gmap string string :=
  list_to_map
    [ ("absolute_import", "__future__.absolute_import");
      ("division", "__future__.division");
      ("print_function", "__future__.print_function");
      ("unicode_literals", "__future__.unicode_literals");
      ("Dict", "typing.Dict"); ("Any", "typing.Any"); ("Tuple", "typing.Tuple");
      ("Optional", "typing.Optional"); ("List", "typing.List");
      ("Union", "typing.Union");
      ("re", "re"); ("logging", "logging"); ("np", "numpy");
      ("AutoTokenizer", "transformers.AutoTokenizer");
      ("transformers", "transformers");
      ("AutoConfig", "transformers.AutoConfig");
      ("PreTrainedTokenizer", "transformers.PreTrainedTokenizer");
      ("ModelingError", "haystack.errors.ModelingError");
      ("SampleBasket", "haystack.modeling.data_handler.samples.SampleBasket");
      ("TOKENIZERS_PARAMS", "haystack.modeling.model._mappings.TOKENIZERS_PARAMS");
      ("TOKENIZERS_MAPPING", "haystack.modeling.model._mappings.TOKENIZERS_MAPPING");
      ("TOKENIZERS_STRING_HINTS",
       "haystack.modeling.model._mappings.TOKENIZERS_STRING_HINTS");
      ("logger", "logger"); ("SPECIAL_TOKENIZER_CHARS", "SPECIAL_TOKENIZER_CHARS");
      ("get_tokenizer", "get_tokenizer");
      ("_infer_tokenizer_classname", "_infer_tokenizer_classname");
      ("tokenize_batch_question_answering", "tokenize_batch_question_answering");
      ("_get_start_of_word_QA", "_get_start_of_word_QA");
      ("tokenize_with_metadata", "tokenize_with_metadata");
      ("truncate_sequences", "truncate_sequences");
      ("_words_to_tokens", "_words_to_tokens") ]%string.

Definition load_global (G : gmap string string) (name : string) : M string :=
  match G !! name with
  | Some obj => ret obj
  | None => raise (NameError name)
  end.

(** A local variable is unbound until its first assignment. *)
Definition load_local {A} (name : string) (v : option A) : M A :=
  match v with
  | Some a => ret a
  | None => raise (UnboundLocalError name)
  end.

(** ** The model configuration and the outside world of the resolver *)

Record Config : Type := {
  model_type : pystr;
  architectures : option (list pystr)
}.

Record Env : Type := {
  (** [AutoConfig.from_pretrained(path, use_auth_token=...)] *)
  AutoConfig : pystr -> pyval -> outcome Config;
  (** [getattr(transformers, name, None)]; a class stands for its
      [from_pretrained(path, use_auth_token=, revision=, **kw)] *)
  transformers_getattr :
    pystr -> option (pystr -> pyval -> pyval -> list (string * pyval) ->
                     outcome Tokenizer);
  (** [str.lower] *)
  lower : pystr -> pystr;
  (** a call [obj.attr(arg)] on the object bound to a global name *)
  global_attr_call : string -> string -> pystr -> outcome pyval;
  (** the tables of [haystack.modeling.model._mappings] *)
  TOKENIZERS_PARAMS : gmap pystr (list (string * pyval));
  TOKENIZERS_MAPPING : gmap pystr pystr;
  TOKENIZERS_STRING_HINTS : list (pystr * pystr)
}.

(** [config.architectures[0]] *)
Definition architectures_0 (config : Config) : M pystr :=
  match architectures config with
  | None => raise TypeError
  | Some [] => raise IndexError
  | Some (a :: _) => ret a
  end.

(** The local variables of [_infer_tokenizer_classname] after its [try]
    statement, each bound or not; or the value returned from the handler. *)
Record infer_locals : Type := {
  l_config : option Config;
  l_model_type : option pystr;
  l_tokenizer_classname : option pyval
}.

Inductive flow (L R : Type) : Type :=
| Continue (locals : L)
| Return (v : R).
Arguments Continue {L R} locals.
Arguments Return {L R} v.

(** [d.get(k, None)] *)
Definition dict_get (d : gmap pystr pystr) (k : pystr) : pyval :=
  match d !! k with Some v => VStr v | None => VNone end.

Definition secondary_path (path : pystr) : pystr :=
  path ++ str "/language_model_config.json".

(** [[value for key, value in TOKENIZERS_STRING_HINTS.items() if key in name]] *)
Definition candidates (hints : list (pystr * pystr)) (name : pystr) : list pystr :=
  map snd (filter (fun kv => contains name (fst kv) = true) hints).

(** ** _infer_tokenizer_classname *)

Definition _infer_tokenizer_classname (G : gmap string string) (env : Env)
    (pretrained_model_name_or_path : pystr) (auth_token : pyval) : M pyval :=
  let* st :=
    try_except
      (let* config :=
         extern (AutoConfig_from_pretrained pretrained_model_name_or_path
                   (or_False auth_token))
                (AutoConfig env pretrained_model_name_or_path (or_False auth_token)) in
       ret (Continue {| l_config := Some config;
                        l_model_type := None;
                        l_tokenizer_classname := None |}))
      is_OSError
      (fun _ =>
         (* Haystack model (no 'config.json' file) *)
         try_except
           (let* config :=
              extern (AutoConfig_from_pretrained
                        (secondary_path pretrained_model_name_or_path)
                        (or_False auth_token))
                     (AutoConfig env (secondary_path pretrained_model_name_or_path)
                        (or_False auth_token)) in
            let model_type' := model_type config in
            let tokenizer_classname :=
              dict_get (TOKENIZERS_MAPPING env) (model_type config) in
            ret (Continue {| l_config := Some config;
                             l_model_type := Some model_type';
                             l_tokenizer_classname := Some tokenizer_classname |}))
           (fun _ => true)
           (fun e =>
              extern (logger_warning
                "No config file found. Trying to infer Tokenizer type from model name")
                (Ok tt) ;;
              let* Tokenizer_cls := load_global G "Tokenizer" in
              let* tokenizer_classname :=
                extern (call_attr Tokenizer_cls "_infer_tokenizer_class_from_string"
                          pretrained_model_name_or_path)
                       (global_attr_call env Tokenizer_cls
                          "_infer_tokenizer_class_from_string"
                          pretrained_model_name_or_path) in
              ret (Return tokenizer_classname))) in
  match st with
  | Return v => ret v
  | Continue locals =>
    let* tokenizer_classname :=
      load_local "tokenizer_classname" (l_tokenizer_classname locals) in
    if negb (truthy tokenizer_classname) then
      let* model_type' := load_local "model_type" (l_model_type locals) in
      if bool_decide (model_type' = str "dpr") then
        let* config := load_local "config" (l_config locals) in
        let* a := architectures_0 config in
        if bool_decide (a = str "DPRQuestionEncoder") then
          ret (VStr (str "DPRQuestionEncoderTokenizer"))
        else
          let* a := architectures_0 config in
          if bool_decide (a = str "DPRContextEncoder") then
            ret (VStr (str "DPRContextEncoderTokenizer"))
          else
            let* a := architectures_0 config in
            if bool_decide (a = str "DPRReader") then
              raise (NotImplementedError "DPRReader models are currently not supported.")
            else ret tokenizer_classname
      else
        (* Fall back to inferring type from model name *)
        extern (logger_warning
          "Could not infer Tokenizer type from config. Trying to infer Tokenizer type from model name.")
          (Ok tt) ;;
        match candidates (TOKENIZERS_STRING_HINTS env) pretrained_model_name_or_path with
        | [] => raise ValueError
        | c :: _ =>
            if bool_decide (c = str "Roberta")
               && contains (lower env pretrained_model_name_or_path) (str "mlm")
            then raise (NotImplementedError
                   "MLM part of codebert is currently not supported in Haystack")
            else ret (VStr c)
        end
    else ret tokenizer_classname
  end.

(** ** get_tokenizer *)

(** [tokenizer_classname + suffix] *)
Definition add_suffix (tokenizer_classname : pyval) (suffix : pystr) : M pystr :=
  match tokenizer_classname with
  | VStr s => ret (s ++ suffix)
  | _ => raise TypeError
  end.

(** [TOKENIZERS_PARAMS.get(tokenizer_classname, {})] *)
Definition params_get (d : gmap pystr (list (string * pyval)))
    (tokenizer_classname : pyval) : list (string * pyval) :=
  match tokenizer_classname with
  | VStr s => default [] (d !! s)
  | _ => []
  end.

(** The keyword arguments of the call
    [from_pretrained(path, use_auth_token=.., revision=.., **params, **kwargs)]:
    a keyword given twice is a [TypeError]. *)
Definition call_keywords (params kwargs : list (string * pyval))
  : M (list (string * pyval)) :=
  if bool_decide (NoDup
       ("pretrained_model_name_or_path"%string :: "use_auth_token"%string ::
        "revision"%string :: map fst params ++ map fst kwargs))
  then ret (params ++ kwargs)
  else raise TypeError.

Definition is_None (v : pyval) : bool :=
  match v with VNone => true | _ => false end.

Definition get_tokenizer (G : gmap string string) (env : Env)
    (pretrained_model_name_or_path : pystr) (revision : pyval)
    (tokenizer_classname : pyval) (use_fast : bool) (auth_token : pyval)
    (kwargs : list (string * pyval)) : M Tokenizer :=
  try_except
    (let* tokenizer_classname :=
       (if is_None tokenizer_classname
        then _infer_tokenizer_classname G env pretrained_model_name_or_path auth_token
        else ret tokenizer_classname) in
     extern (logger_debug (str "Loading tokenizer of type '"
                           ++ format_pyval tokenizer_classname ++ str "'"))
            (Ok tt) ;;
     let suffix := if use_fast then str "TokenizerFast" else str "Tokenizer" in
     let params := params_get (TOKENIZERS_PARAMS env) tokenizer_classname in
     let* name := add_suffix tokenizer_classname suffix in
     match transformers_getattr env name with
     | None => raise AttributeError
     | Some tokenizer_class =>
         let* kw := call_keywords params kwargs in
         extern (class_from_pretrained name pretrained_model_name_or_path
                   (or_False auth_token) revision kw)
                (tokenizer_class pretrained_model_name_or_path
                   (or_False auth_token) revision kw)
     end)
    (fun _ => true)
    (fun e => raise (ModelingError "Unable to load tokenizer." e)).

(** ** numpy on arrays of word indices

    [np.array] of a list of word indices is an integer array, or an array of
    objects when an index is [None]; arithmetic on [None] is a [TypeError].
    Word indices are bounded by the number of tokens, far from the 64 bit
    range, so the integers are not wrapped. *)

(** [np.ediff1d(a)]: the differences of consecutive elements. *)
Fixpoint ediff1d (a : list Z) : list Z :=
  match a with
  | x :: (y :: _) as rest => (y - x) :: ediff1d rest
  | _ => []
  end.

Fixpoint ediff1d_obj (a : list (option Z)) : outcome (list Z) :=
  match a with
  | x :: (y :: _) as rest =>
      match x, y, ediff1d_obj rest with
      | Some x', Some y', Ok ds => Ok ((y' - x') :: ds)
      | _, _, _ => Raise TypeError
      end
  | _ => Ok []
  end.

(** [a += 1] *)
Fixpoint add_one (a : list (option Z)) : outcome (list Z) :=
  match a with
  | [] => Ok []
  | Some x :: rest =>
      match add_one rest with
      | Ok r => Ok ((x + 1) :: r)
      | Raise e => Raise e
      end
  | None :: _ => Raise TypeError
  end.

(** [l[i]] for [i >= 0] *)
Definition index {A} (l : list A) (i : nat) : M A :=
  match l !! i with
  | Some x => ret x
  | None => raise IndexError
  end.

Definition _get_start_of_word_QA (word_ids : list (option Z)) : M (list Z) :=
  let words := word_ids in
  let* d := lift (ediff1d_obj words) in
  let start_of_word_single := 1 :: d in
  ret start_of_word_single.

(** The start-of-word computation of the fast path of
    [tokenize_with_metadata]:
    [words[0] = -1; words[-1] = words[-2]; words += 1;
     start_of_word2 = [0] + list(np.ediff1d(words))]. *)
Definition fast_start_of_word (words : list (option Z)) : M (list Z) :=
  let* words1 :=
    match words with
    | [] => raise IndexError
    | _ :: rest => ret (Some (-1) :: rest)
    end in
  let n := length words1 in
  let* words2 :=
    (if bool_decide (n < 2)%nat then raise IndexError
     else let* w := index words1 (n - 2)%nat in
          ret (<[(n - 1)%nat := w]> words1)) in
  let* words3 := lift (add_one words2) in
  let start_of_word2 := 0 :: ediff1d words3 in
  ret start_of_word2.

(** ** tokenize_with_metadata *)

(** The characters [\s] matches in a [str] pattern: those for which
    [str.isspace] holds. *)
Definition is_space (c : N) : bool :=
  ((9 <=? c) && (c <=? 13) || (28 <=? c) && (c <=? 32) ||
   (c =? 133) || (c =? 160) || (c =? 5760) ||
   (8192 <=? c) && (c <=? 8202) || (c =? 8232) || (c =? 8233) ||
   (c =? 8239) || (c =? 8287) || (c =? 12288))%N.

Definition SPACE : N := 32%N.

(** [re.sub(r"\s", " ", text)] *)
Definition sub_whitespace (text : pystr) : pystr :=
  map (fun c => if is_space c then SPACE else c) text.

(** [text.split(" ")] *)
Fixpoint split_space (text : pystr) : list pystr :=
  match text with
  | [] => [[]]
  | c :: rest =>
      if (c =? SPACE)%N then [] :: split_space rest
      else match split_space rest with
           | w :: ws => (c :: w) :: ws
           | [] => [[c]]
           end
  end.

(** [SPECIAL_TOKENIZER_CHARS = r"^(##|Ġ|▁)"] and
    [re.sub(SPECIAL_TOKENIZER_CHARS, "", tok)]: one leading marker is
    removed ([Ġ] is U+0120, [▁] is U+2581). *)
Definition strip_special (tok : pystr) : pystr :=
  match tok with
  | 35 :: 35 :: rest => rest
  | 288 :: rest => rest
  | 9601 :: rest => rest
  | _ => tok
  end%N.

(** [d[k]] *)
Definition getitem (d : gmap pystr pystr) (k : pystr) : M pystr :=
  match d !! k with
  | Some v => ret v
  | None => raise KeyError
  end.

Record tokens_state : Type := {
  st_idx : Z;
  st_tokens : list pystr;
  st_token_offsets : list Z;
  st_start_of_word : list bool
}.

(** The body of the loop over the tokens of one word; the state is
    [(w_off, token_offsets, start_of_word, first_tok)]. *)
Definition token_body (tokenizer : Tokenizer)
    (s : Z * list Z * list bool * bool) (tok : pystr)
  : M (Z * list Z * list bool * bool) :=
  let '(w_off, token_offsets, start_of_word, first_tok) := s in
  let token_offsets := token_offsets ++ [w_off] in
  let orig_tok := strip_special tok in
  let* unk := getitem (special_tokens_map tokenizer) (str "unk_token") in
  let w_off :=
    if bool_decide (orig_tok = unk) then w_off + 1 else w_off + len orig_tok in
  if first_tok
  then ret (w_off, token_offsets, start_of_word ++ [true], false)
  else ret (w_off, token_offsets, start_of_word ++ [false], first_tok).

(** The body of the loop over [zip(words, word_offsets)]. *)
Definition word_body (G : gmap string string) (tokenizer : Tokenizer)
    (s : tokens_state) (wo : pystr * Z) : M tokens_state :=
  let '(w, w_off) := wo in
  let idx := st_idx s + 1 in
  (if idx mod 500000 =? 0 then extern (logger_info idx) (Ok tt) else ret tt) ;;
  let s := {| st_idx := idx; st_tokens := st_tokens s;
              st_token_offsets := st_token_offsets s;
              st_start_of_word := st_start_of_word s |} in
  (* empty / pure whitespace *)
  if len w =? 0 then ret s
  else
    let* tokens_word :=
      (if len (st_tokens s) =? 0
       then extern (tokenizer_tokenize w false) (tokenize tokenizer w false)
       else
         let* RobertaTokenizer_cls := load_global G "RobertaTokenizer" in
         if bool_decide (tok_type tokenizer = RobertaTokenizer_cls)
         then extern (tokenizer_tokenize w true) (tokenize tokenizer w true)
         else extern (tokenizer_tokenize w false) (tokenize tokenizer w false)) in
    (* Sometimes the tokenizer returns no tokens *)
    if len tokens_word =? 0 then ret s
    else
      let tokens := st_tokens s ++ tokens_word in
      let* r := for_each tokens_word (token_body tokenizer)
                  (w_off, st_token_offsets s, st_start_of_word s, true) in
      let '(_, token_offsets, start_of_word, _) := r in
      ret {| st_idx := idx; st_tokens := tokens;
             st_token_offsets := token_offsets;
             st_start_of_word := start_of_word |}.

Definition _words_to_tokens (G : gmap string string) (words : list pystr)
    (word_offsets : list Z) (tokenizer : Tokenizer)
  : M (list pystr * list Z * list bool) :=
  let* s := for_each (zip words word_offsets) (word_body G tokenizer)
              {| st_idx := 0; st_tokens := []; st_token_offsets := [];
                 st_start_of_word := [] |} in
  ret (st_tokens s, st_token_offsets s, st_start_of_word s).

(** The loop that fills [word_offsets], started at [cumulated]. *)
Fixpoint word_offsets_from (cumulated : Z) (words : list pystr) : list Z :=
  match words with
  | [] => []
  | word :: rest => cumulated :: word_offsets_from (cumulated + (len word + 1)) rest
  end.

Record tokenized_dict : Type := {
  d_tokens : list pyval;
  d_offsets : list Z;
  d_start_of_word : list pyval
}.

Definition tokenize_with_metadata (G : gmap string string) (text : pystr)
    (tokenizer : Tokenizer) : M tokenized_dict :=
  (* normalize all other whitespace characters to " " *)
  let text := sub_whitespace text in
  if is_fast tokenizer then
    let* tokenized2 :=
      extern (tokenizer_encode_plus text true) (encode_plus tokenizer text true) in
    let tokens2 := input_ids tokenized2 in
    let offsets2 := map fst (offset_mapping tokenized2) in
    let* e := index (encodings tokenized2) 0 in
    let* start_of_word2 := fast_start_of_word (words e) in
    ret {| d_tokens := map VInt tokens2; d_offsets := offsets2;
           d_start_of_word := map VInt start_of_word2 |}
  else
    (* split text into "words" (here: simple whitespace tokenizer). *)
    let words := split_space text in
    let word_offsets := word_offsets_from 0 words in
    let* r := _words_to_tokens G words word_offsets tokenizer in
    let '(tokens, offsets, start_of_word) := r in
    ret {| d_tokens := map VStr tokens; d_offsets := offsets;
           d_start_of_word := map VBool start_of_word |}.

(** ** tokenize_batch_question_answering *)

Definition DASH : N := 45%N.

(** [f"{index}-{i_q}"] *)
Definition internal_id_of (index : Z) (i_q : nat) : pystr :=
  str_of_int index ++ DASH :: str_of_int (Z.of_nat i_q).

Record Answer : Type := {
  answer_text : pystr;
  answer_start : Z
}.

Record QA : Type := {
  question : pystr;
  id : pyval;
  answers : list Answer
}.

Record PreBasket : Type := {
  context : pystr;
  qas : list QA
}.

Record Raw : Type := {
  document_text : pystr;
  document_tokens : list Z;
  document_offsets : list Z;
  document_start_of_word : list Z;
  question_text : pystr;
  question_tokens : list Z;
  question_offsets : list Z;
  question_start_of_word : list Z;
  raw_answers : list Answer;
  document_tokens_strings : list pystr;
  question_tokens_strings : list pystr
}.

(** [haystack.modeling.data_handler.samples.SampleBasket], as constructed
    here: [samples] is [None]. *)
Record SampleBasket : Type := {
  raw : Raw;
  id_internal : pystr;
  id_external : pyval;
  samples : option (list unit)
}.

(** [enumerate(l)] *)
Definition enumerate {A} (l : list A) : list (nat * A) :=
  zip (seq 0 (length l)) l.

(** [assert cond] *)
Definition assert (cond : bool) : M unit :=
  if cond then ret tt else raise AssertionError.

(** The body of the loop over [enumerate(d["qas"])]. *)
Definition question_body (tokenizer : Tokenizer) (indices : list Z)
    (tokenized_docs_batch : BatchEncodings)
    (tokenids_batch offsets_batch start_of_words_batch : list (list Z))
    (i_doc : nat) (document_text : pystr)
    (baskets : list SampleBasket) (iq : nat * QA) : M (list SampleBasket) :=
  let '(i_q, q) := iq in
  let question_text' := question q in
  let* tokenized_q :=
    extern (tokenizer_encode_plus question_text' false)
           (encode_plus tokenizer question_text' false) in
  let question_tokenids := input_ids tokenized_q in
  let question_offsets' := map fst (offset_mapping tokenized_q) in
  let* e := index (encodings tokenized_q) 0 in
  let* question_sow := _get_start_of_word_QA (words e) in
  let external_id := id q in
  let* index_i := index indices i_doc in
  let internal_id := internal_id_of index_i i_q in
  let* doc_tokens := index tokenids_batch i_doc in
  let* doc_offsets := index offsets_batch i_doc in
  let* doc_sow := index start_of_words_batch i_doc in
  let* doc_e := index (batch_encodings tokenized_docs_batch) i_doc in
  let* q_e := index (encodings tokenized_q) 0 in
  let raw' :=
    {| document_text := document_text;
       document_tokens := doc_tokens;
       document_offsets := doc_offsets;
       document_start_of_word := doc_sow;
       question_text := question_text';
       question_tokens := question_tokenids;
       question_offsets := question_offsets';
       question_start_of_word := question_sow;
       raw_answers := answers q;
       document_tokens_strings := tokens doc_e;
       question_tokens_strings := tokens q_e |} in
  ret (baskets ++ [{| raw := raw'; id_internal := internal_id;
                      id_external := external_id; samples := None |}]).

(** The body of the loop over [enumerate(pre_baskets)]. *)
Definition document_body (tokenizer : Tokenizer) (indices : list Z)
    (tokenized_docs_batch : BatchEncodings)
    (tokenids_batch offsets_batch start_of_words_batch : list (list Z))
    (baskets : list SampleBasket) (id : nat * PreBasket) : M (list SampleBasket) :=
  let '(i_doc, d) := id in
  let document_text := context d in
  (* Tokenize questions one by one *)
  for_each (enumerate (qas d))
    (question_body tokenizer indices tokenized_docs_batch
       tokenids_batch offsets_batch start_of_words_batch i_doc document_text)
    baskets.

Definition tokenize_batch_question_answering (pre_baskets : list PreBasket)
    (tokenizer : Tokenizer) (indices : list Z) : M (list SampleBasket) :=
  assert (bool_decide (length indices = length pre_baskets)) ;;
  assert (is_fast tokenizer) ;;
  let baskets := [] in
  (* Tokenize texts in batch mode *)
  let texts := map context pre_baskets in
  let* tokenized_docs_batch :=
    extern (tokenizer_batch_encode_plus texts) (batch_encode_plus tokenizer texts) in
  (* Extract relevant data *)
  let tokenids_batch := batch_input_ids tokenized_docs_batch in
  let offsets_batch := map (map fst) (batch_offset_mapping tokenized_docs_batch) in
  let* start_of_words_batch :=
    for_each (batch_encodings tokenized_docs_batch)
      (fun acc e => let* s := _get_start_of_word_QA (words e) in ret (acc ++ [s]))
      [] in
  for_each (enumerate pre_baskets)
    (document_body tokenizer indices tokenized_docs_batch
       tokenids_batch offsets_batch start_of_words_batch)
    baskets.

(** ** Reading of the specification: collapsing whitespace runs

    Follows the specification's words, for comparison with [sub_whitespace]:
    every maximal run of whitespace characters becomes one space. *)
Fixpoint spec_collapse_whitespace_runs (text : pystr) : pystr :=
  match text with
  | [] => []
  | c :: rest =>
      if is_space c then
        match rest with
        | c' :: _ =>
            if is_space c' then spec_collapse_whitespace_runs rest
            else SPACE :: spec_collapse_whitespace_runs rest
        | [] => [SPACE]
        end
      else c :: spec_collapse_whitespace_runs rest
  end.

(** ** Sample tokenizers, tables and inputs used to run the definitions *)

(** A truncation primitive in the manner of the library's: it refuses
    ["do_not_truncate"] and otherwise removes the end of the first
    sequence. *)
Definition sample_truncate (A : Type) (ids : list A) (pair_ids : option (list A))
    (num_tokens_to_remove : Z) (truncation_strategy : pystr) (stride : Z)
  : outcome (list A * option (list A) * list A) :=
  if bool_decide (truncation_strategy = str "do_not_truncate") then Raise ValueError
  else
    let keep := (length ids - Z.to_nat num_tokens_to_remove)%nat in
    Ok (take keep ids, pair_ids, drop keep ids).

(** The non-empty words of a text with the offsets where they begin. *)
Definition sample_words (text : pystr) : list (pystr * Z) :=
  filter (fun wo => fst wo <> [])
         (zip (split_space text) (word_offsets_from 0 (split_space text))).

(** A toy fast encoder: one token per word, the length of the word as its
    id, [[CLS]] and [[SEP]] around the text when special tokens are added. *)
Definition sample_encode (text : pystr) (add_special_tokens : bool) : BatchEncoding :=
  let ws := sample_words text in
  let ids := map (fun wo => len (fst wo)) ws in
  let offs := map (fun wo => (snd wo, snd wo + len (fst wo))) ws in
  let wids := map (fun i => Some (Z.of_nat i)) (seq 0 (length ws)) in
  let toks := map fst ws in
  if add_special_tokens then
    {| input_ids := 101 :: ids ++ [102];
       offset_mapping := (0, 0) :: offs ++ [(0, 0)];
       encodings := [{| words := None :: wids ++ [None];
                        tokens := str "[CLS]" :: toks ++ [str "[SEP]"] |}] |}
  else
    {| input_ids := ids; offset_mapping := offs;
       encodings := [{| words := wids; tokens := toks |}] |}.

Definition sample_batch_encode (texts : list pystr) : BatchEncodings :=
  let es := map (fun t => sample_encode t false) texts in
  {| batch_input_ids := map input_ids es;
     batch_offset_mapping := map offset_mapping es;
     batch_encodings := flat_map encodings es |}.

Definition sample_special_tokens_map : gmap pystr pystr :=
  {[ str "unk_token" := str "[UNK]" ]}.

(** A slow tokenizer whose word-level splitter returns each word as one
    token. *)
Definition whitespace_tokenizer : Tokenizer :=
  {| tok_type := "transformers.BertTokenizer";
     is_fast := false;
     special_tokens_map := sample_special_tokens_map;
     tokenize := fun w _ => Ok [w];
     encode_plus := fun _ _ => Raise (LibraryError "NotImplementedError");
     batch_encode_plus := fun _ => Raise (LibraryError "NotImplementedError");
     num_special_tokens_to_add := fun pair => if pair then 3 else 2;
     lib_truncate_sequences := sample_truncate |}.

Definition sample_fast_tokenizer : Tokenizer :=
  {| tok_type := "transformers.BertTokenizerFast";
     is_fast := true;
     special_tokens_map := sample_special_tokens_map;
     tokenize := fun w _ => Ok [w];
     encode_plus := fun t special => Ok (sample_encode t special);
     batch_encode_plus := fun ts => Ok (sample_batch_encode ts);
     num_special_tokens_to_add := fun pair => if pair then 3 else 2;
     lib_truncate_sequences := sample_truncate |}.

(** ASCII lower-casing, enough for the sample model names. *)
Definition ascii_lower (s : pystr) : pystr :=
  map (fun c => if ((65 <=? c) && (c <=? 90))%N then (c + 32)%N else c) s.

Definition sample_config : Config :=
  {| model_type := str "bert"; architectures := Some [str "BertForMaskedLM"] |}.

(** A world in which only ["bert-base-uncased"] has a configuration, at the
    primary location. *)
Definition sample_env : Env :=
  {| AutoConfig := fun path _ =>
       if bool_decide (path = str "bert-base-uncased") then Ok sample_config
       else Raise OSError;
     transformers_getattr := fun name =>
       if bool_decide (name = str "BertTokenizerFast")
       then Some (fun _ _ _ _ => Ok sample_fast_tokenizer)
       else if bool_decide (name = str "BertTokenizer")
       then Some (fun _ _ _ _ => Ok whitespace_tokenizer)
       else None;
     lower := ascii_lower;
     global_attr_call := fun _ _ _ => Raise AttributeError;
     TOKENIZERS_PARAMS := ∅;
     TOKENIZERS_MAPPING :=
       {[ str "bert" := str "Bert"; str "roberta" := str "Roberta" ]};
     TOKENIZERS_STRING_HINTS :=
       [ (str "roberta", str "Roberta"); (str "bert", str "Bert") ] |}.

(** Globals of a module that would also import [RobertaTokenizer]. *)
Definition globals_with_roberta : gmap string string :=
  <["RobertaTokenizer"%string := "transformers.RobertaTokenizer"%string]> module_globals.

Definition sample_question (q i : string) : QA :=
  {| question := str q; id := VStr (str i); answers := [] |}.

Definition sample_doc_two_questions : PreBasket :=
  {| context := str "Berlin is a city";
     qas := [ sample_question "What is Berlin" "q1";
              sample_question "Where is Berlin" "q2" ] |}.

Definition sample_doc_one_question : PreBasket :=
  {| context := str "Paris is a city";
     qas := [ sample_question "What is Paris" "q3" ] |}.

(** ** Predicates used in the statements *)

(** The three lists built by [_words_to_tokens] advance together, and the
    first flag recorded, if any, is [True]. *)
Definition aligned_state (s : tokens_state) : Prop :=
  length (st_tokens s) = length (st_token_offsets s) /\
  length (st_token_offsets s) = length (st_start_of_word s) /\
  (st_start_of_word s = [] \/ head (st_start_of_word s) = Some true).

(** What the library guarantees of a fast tokenizer's encoding: one id, one
    offset pair and one word index per token. *)
Definition aligned_encoding (be : BatchEncoding) : Prop :=
  forall e, head (encodings be) = Some e ->
    length (input_ids be) = length (words e) /\
    length (offset_mapping be) = length (words e).

(** The flags one word contributes: [first] for its first token, [False]
    for the others. *)
Definition word_flags (toks : list pystr) (first : bool) : list bool :=
  match toks with
  | [] => []
  | _ :: rest => first :: replicate (length rest) false
  end.

(** The (document, question) pairs of a batch, in the order of the two
    loops, each with its position in the batch and in the document. *)
Definition qa_pairs (pre_baskets : list PreBasket)
  : list (nat * PreBasket * (nat * QA)) :=
  concat (map (fun id => map (fun iq => (id, iq)) (enumerate (qas id.2)))
              (enumerate pre_baskets)).

(** What the basket of question [i_q] of document [i_doc] holds: every
    field of the basket and of its [raw] dictionary, in terms of the batch
    encoding of the documents, entry [i_doc], and of the encoding of the
    question. *)
Definition basket_for (tokenizer : Tokenizer) (indices : list Z)
    (tokenized_docs_batch : BatchEncodings)
    (p : nat * PreBasket * (nat * QA)) (b : SampleBasket) : Prop :=
  let '((i_doc, d), (i_q, q)) := p in
  exists index_i tokenized_q,
    indices !! i_doc = Some index_i /\
    id_internal b = internal_id_of index_i i_q /\
    id_external b = id q /\
    samples b = None /\
    document_text (raw b) = context d /\
    batch_input_ids tokenized_docs_batch !! i_doc = Some (document_tokens (raw b)) /\
    map (map fst) (batch_offset_mapping tokenized_docs_batch) !! i_doc
      = Some (document_offsets (raw b)) /\
    encode_plus tokenizer (question q) false = Ok tokenized_q /\
    question_text (raw b) = question q /\
    question_tokens (raw b) = input_ids tokenized_q /\
    question_offsets (raw b) = map fst (offset_mapping tokenized_q) /\
    raw_answers (raw b) = answers q /\
    exists doc_e q_e,
      batch_encodings tokenized_docs_batch !! i_doc = Some doc_e /\
      result (_get_start_of_word_QA (words doc_e))
        = Ok (document_start_of_word (raw b)) /\
      document_tokens_strings (raw b) = tokens doc_e /\
      encodings tokenized_q !! 0%nat = Some q_e /\
      result (_get_start_of_word_QA (words q_e))
        = Ok (question_start_of_word (raw b)) /\
      question_tokens_strings (raw b) = tokens q_e.

(** The entries of [start_of_words_batch], one per encoding of the batch. *)
Definition start_of_words_of (es : list Encoding) (sb : list (list Z)) : Prop :=
  Forall2 (fun e s => result (_get_start_of_word_QA (words e)) = Ok s) es sb.

(** An encoding whose tokens all have a source word, as a fast tokenizer
    returns when it adds no special tokens. *)
Definition all_words (e : Encoding) : Prop := Forall is_Some (words e).

(** What the library guarantees of a fast tokenizer on a batch: it encodes
    every document and every question, entry for entry. *)
Definition encodes_batch (tokenizer : Tokenizer) (pre_baskets : list PreBasket)
    (tokenized_docs_batch : BatchEncodings) : Prop :=
  batch_encode_plus tokenizer (map context pre_baskets) = Ok tokenized_docs_batch /\
  length (batch_input_ids tokenized_docs_batch) = length pre_baskets /\
  length (batch_offset_mapping tokenized_docs_batch) = length pre_baskets /\
  length (batch_encodings tokenized_docs_batch) = length pre_baskets /\
  Forall all_words (batch_encodings tokenized_docs_batch) /\
  Forall (fun d => Forall (fun q =>
            exists tokenized_q e,
              encode_plus tokenizer (question q) false = Ok tokenized_q /\
              head (encodings tokenized_q) = Some e /\ all_words e) (qas d))
         pre_baskets.

(** Two batches whose externally assigned indices are 10 and 11. *)
Definition sample_batch_a : list PreBasket := [sample_doc_two_questions].
Definition sample_batch_b : list PreBasket := [sample_doc_one_question].

(** ** Further samples and predicates *)

(** A world in which only the Haystack configuration of the saved model
    [name] exists, at the secondary location. *)
Definition haystack_env (name : pystr) (config : Config) : Env :=
  {| AutoConfig := fun path _ =>
       if bool_decide (path = secondary_path name) then Ok config
       else Raise OSError;
     transformers_getattr := transformers_getattr sample_env;
     lower := ascii_lower;
     global_attr_call := fun _ _ _ => Raise AttributeError;
     TOKENIZERS_PARAMS :=
       {[ str "Bert" := [("do_lower_case"%string, VBool false)] ]};
     TOKENIZERS_MAPPING := TOKENIZERS_MAPPING sample_env;
     TOKENIZERS_STRING_HINTS := TOKENIZERS_STRING_HINTS sample_env |}.

(** A world in which every configuration found is of a model type the
    library does not recognise: loading it raises [ValueError]. *)
Definition unrecognized_env : Env :=
  {| AutoConfig := fun _ _ => Raise ValueError;
     transformers_getattr := transformers_getattr sample_env;
     lower := ascii_lower;
     global_attr_call := fun _ _ _ => Raise AttributeError;
     TOKENIZERS_PARAMS := ∅;
     TOKENIZERS_MAPPING := TOKENIZERS_MAPPING sample_env;
     TOKENIZERS_STRING_HINTS := TOKENIZERS_STRING_HINTS sample_env |}.

Definition dpr_config (architecture : string) : Config :=
  {| model_type := str "dpr"; architectures := Some [str architecture] |}.

Definition unknown_config : Config :=
  {| model_type := str "my-own-type"; architectures := None |}.

Definition is_config_call (c : call) : bool :=
  match c with AutoConfig_from_pretrained _ _ => true | _ => false end.

Definition is_class_call (c : call) : bool :=
  match c with class_from_pretrained _ _ _ _ _ => true | _ => false end.

Definition is_tokenizer_call (c : call) : bool :=
  match c with
  | tokenizer_tokenize _ _ | tokenizer_encode_plus _ _
  | tokenizer_batch_encode_plus _ | tokenizer_num_special_tokens_to_add _
  | tokenizer_truncate_sequences _ _ _ => true
  | _ => false
  end.

(** The suffix [get_tokenizer] appends to the class name. *)
Definition class_suffix (use_fast : bool) : pystr :=
  if use_fast then str "TokenizerFast" else str "Tokenizer".

(** What [get_tokenizer] makes of the outcome of its body. *)
Definition wrap_ModelingError {A} (r : outcome A) : outcome A :=
  match r with
  | Ok a => Ok a
  | Raise e => Raise (ModelingError "Unable to load tokenizer." e)
  end.

(** [" ".join(words)] *)
Fixpoint join_space (words : list pystr) : pystr :=
  match words with
  | [] => []
  | w :: rest =>
      match rest with
      | [] => w
      | _ :: _ => w ++ SPACE :: join_space rest
      end
  end.

(** [text[off : off + n]] *)
Definition slice (text : pystr) (off : Z) (n : nat) : pystr :=
  take n (drop (Z.to_nat off) text).

(** What the slow path may hand to [tokenizer.tokenize]: words that are
    not empty and hold no whitespace. *)
Definition tokenizes_words_only (c : call) : Prop :=
  match c with
  | tokenizer_tokenize w _ => w <> [] /\ Forall (fun ch => is_space ch = false) w
  | _ => True
  end.

Definition is_tokenize_call (c : call) : bool :=
  match c with tokenizer_tokenize _ _ => true | _ => false end.

(** A slow tokenizer that splits a word into its first character and a
    continuation marked with [##]. *)
Definition wordpiece_tokenizer : Tokenizer :=
  {| tok_type := "transformers.BertTokenizer";
     is_fast := false;
     special_tokens_map := sample_special_tokens_map;
     tokenize := fun w _ =>
       match w with
       | c :: (_ :: _) as rest => Ok [[c]; str "##" ++ rest]
       | _ => Ok [w]
       end;
     encode_plus := fun _ _ => Raise (LibraryError "NotImplementedError");
     batch_encode_plus := fun _ => Raise (LibraryError "NotImplementedError");
     num_special_tokens_to_add := fun pair => if pair then 3 else 2;
     lib_truncate_sequences := sample_truncate |}.

(** A fast tokenizer that adds no special tokens. *)
Definition plain_fast_tokenizer : Tokenizer :=
  {| tok_type := "transformers.GPT2TokenizerFast";
     is_fast := true;
     special_tokens_map := sample_special_tokens_map;
     tokenize := fun w _ => Ok [w];
     encode_plus := fun t _ => Ok (sample_encode t false);
     batch_encode_plus := fun ts => Ok (sample_batch_encode ts);
     num_special_tokens_to_add := fun _ => 0;
     lib_truncate_sequences := sample_truncate |}.

(** The encoding of a text paired with itself:
    [[CLS] text [SEP] text [SEP]]. *)
Definition sample_encode_pair (text : pystr) : BatchEncoding :=
  let e := sample_encode text false in
  let ws := flat_map words (encodings e) in
  let ts := flat_map tokens (encodings e) in
  {| input_ids := 101 :: input_ids e ++ [102] ++ input_ids e ++ [102];
     offset_mapping :=
       (0, 0) :: offset_mapping e ++ [(0, 0)] ++ offset_mapping e ++ [(0, 0)];
     encodings :=
       [{| words := None :: ws ++ [None] ++ ws ++ [None];
           tokens := str "[CLS]" :: ts ++ [str "[SEP]"] ++ ts ++ [str "[SEP]"] |}] |}.

Definition pair_fast_tokenizer : Tokenizer :=
  {| tok_type := "transformers.BertTokenizerFast";
     is_fast := true;
     special_tokens_map := sample_special_tokens_map;
     tokenize := fun w _ => Ok [w];
     encode_plus := fun t _ => Ok (sample_encode_pair t);
     batch_encode_plus := fun ts => Ok (sample_batch_encode ts);
     num_special_tokens_to_add := fun pair => if pair then 3 else 2;
     lib_truncate_sequences := sample_truncate |}.

(** The offsets the tokens of one word get: the offset of the word for the
    first, then advanced token by token, by 1 for the unknown token and by
    the length of the token without its marker otherwise. *)
Fixpoint token_offsets_from (unk : pystr) (w_off : Z) (toks : list pystr)
  : list Z :=
  match toks with
  | [] => []
  | tok :: rest =>
      w_off ::
      token_offsets_from unk
        (if bool_decide (strip_special tok = unk) then w_off + 1
         else w_off + len (strip_special tok))
        rest
  end.

(** A slow tokenizer without an unknown token. *)
Definition no_unk_tokenizer : Tokenizer :=
  {| tok_type := "transformers.GPT2Tokenizer";
     is_fast := false;
     special_tokens_map := ∅;
     tokenize := fun w _ => Ok [w];
     encode_plus := fun _ _ => Raise (LibraryError "NotImplementedError");
     batch_encode_plus := fun _ => Raise (LibraryError "NotImplementedError");
     num_special_tokens_to_add := fun _ => 0;
     lib_truncate_sequences := sample_truncate |}.

(** A slow tokenizer that knows no word: every word becomes the unknown
    token followed by a continuation piece. *)
Definition unknown_word_tokenizer : Tokenizer :=
  {| tok_type := "transformers.BertTokenizer";
     is_fast := false;
     special_tokens_map := sample_special_tokens_map;
     tokenize := fun w _ => Ok [str "[UNK]"; str "##" ++ drop 1 w];
     encode_plus := fun _ _ => Raise (LibraryError "NotImplementedError");
     batch_encode_plus := fun _ => Raise (LibraryError "NotImplementedError");
     num_special_tokens_to_add := fun pair => if pair then 3 else 2;
     lib_truncate_sequences := sample_truncate |}.

(** * Properties *)

(** ** The monad *)

Lemma result_bind {A B} (m : M A) (k : A -> M B) :
  result (bind m k) =
  match result m with
  | Ok a => result (k a)
  | Raise e => Raise e
  end.
Proof. destruct m as [t [a|e]]; simpl; [by destruct (k a)|done]. Qed.

Lemma bind_ext {A B} (m : M A) (k k' : A -> M B) :
  (forall a, k a = k' a) -> bind m k = bind m k'.
Proof. intros H. destruct m as [t [a|e]]; simpl; [by rewrite H|done]. Qed.

Lemma result_for_each_cons {A S} (x : A) xs (body : S -> A -> M S) acc :
  result (for_each (x :: xs) body acc) =
  match result (body acc x) with
  | Ok s => result (for_each xs body s)
  | Raise e => Raise e
  end.
Proof. simpl. apply result_bind. Qed.

Lemma result_bind_Ok {A B} (m : M A) (k : A -> M B) (b : B) :
  result (bind m k) = Ok b ->
  exists a, result m = Ok a /\ result (k a) = Ok b.
Proof.
  destruct m as [t [a|e]]; simpl.
  - destruct (k a) as [t' r] eqn:Hk. simpl. intros ->. exists a. by rewrite Hk.
  - discriminate.
Qed.

Lemma for_each_invariant {A S} (P : S -> Prop) (xs : list A)
    (body : S -> A -> M S) (acc s' : S) :
  (forall s x s'', x ∈ xs -> P s -> result (body s x) = Ok s'' -> P s'') ->
  P acc -> result (for_each xs body acc) = Ok s' -> P s'.
Proof.
  revert acc. induction xs as [|x xs IH]; intros acc Hstep Hacc Hres.
  - simpl in Hres. by inversion Hres; subst.
  - simpl in Hres. apply result_bind_Ok in Hres as (s1 & H1 & H2).
    apply (IH s1); [|by eapply Hstep; [left| |]|done].
    intros s x' s'' Hin. apply Hstep. by right.
Qed.

(** ** truncate_sequences *)

Lemma truncate_sequences_total_len {A} (seq_a : list A) seq_b tokenizer
    max_seq_len strategy with_special_tokens stride :
  truncate_sequences seq_a seq_b tokenizer max_seq_len strategy
    with_special_tokens stride =
  let total := total_len seq_a seq_b tokenizer with_special_tokens in
  let special :=
    if with_special_tokens
    then [tokenizer_num_special_tokens_to_add (bool_decide (is_Some seq_b))]
    else [] in
  if negb (max_seq_len =? 0) && (max_seq_len <? total)
  then (special ++ [tokenizer_truncate_sequences (total - max_seq_len) strategy stride],
        lib_truncate_sequences tokenizer A seq_a seq_b (total - max_seq_len)
          strategy stride)
  else (special, Ok (seq_a, seq_b, [])).
Proof.
  unfold truncate_sequences, total_len.
  destruct with_special_tokens; simpl;
    match goal with |- context [negb ?a && ?b] => destruct (negb a && b) end;
    simpl; rewrite ?Z.add_0_r; reflexivity.
Qed.

(** C10: when [max_seq_len] is 0, or when the total length (with the
    reserved special tokens if requested) does not exceed [max_seq_len],
    [truncate_sequences] returns both sequences unchanged with an empty
    overflow list, whatever the strategy, and its trace holds no call of the
    tokenizer's truncation primitive. *)
Theorem truncate_sequences_noop {A} (seq_a : list A) (seq_b : option (list A))
    (tokenizer : Tokenizer) (max_seq_len : Z) (truncation_strategy : pystr)
    (with_special_tokens : bool) (stride : Z) :
  max_seq_len = 0 \/
  total_len seq_a seq_b tokenizer with_special_tokens <= max_seq_len ->
  result (truncate_sequences seq_a seq_b tokenizer max_seq_len
            truncation_strategy with_special_tokens stride)
    = Ok (seq_a, seq_b, []) /\
  Forall (fun c => is_truncate_call c = false)
    (trace (truncate_sequences seq_a seq_b tokenizer max_seq_len
              truncation_strategy with_special_tokens stride)).
Proof.
  intros H. rewrite truncate_sequences_total_len. cbv zeta.
  assert ((negb (max_seq_len =? 0)
           && (max_seq_len <? total_len seq_a seq_b tokenizer with_special_tokens))
          = false) as ->.
  { destruct H as [-> | H]; [done|].
    apply andb_false_iff. right. by apply Z.ltb_ge. }
  split; [done|]. destruct with_special_tokens; simpl; repeat constructor.
Qed.

Lemma truncate_sequences_noop_witness :
  total_len [1; 2; 3] (Some [4; 5]) whitespace_tokenizer true <= 8 /\
  result (truncate_sequences [1; 2; 3] (Some [4; 5]) whitespace_tokenizer 8
            (str "only_first") true 0) = Ok ([1; 2; 3], Some [4; 5], []) /\
  Forall (fun c => is_truncate_call c = false)
    (trace (truncate_sequences [1; 2; 3] (Some [4; 5]) whitespace_tokenizer 8
              (str "only_first") true 0)).
Proof.
  assert (total_len [1; 2; 3] (Some [4; 5]) whitespace_tokenizer true <= 8) as H
    by (vm_compute; discriminate).
  split; [exact H|].
  exact (truncate_sequences_noop [1; 2; 3] (Some [4; 5]) whitespace_tokenizer 8
           (str "only_first") true 0 (or_intror H)).
Defined.

(** C8, as stated, fails at [max_seq_len = 0]: the total length 3 exceeds
    0, the strategy is ["do_not_truncate"], the primitive of this tokenizer
    would refuse, and yet the sequence comes back over length and no error
    is raised. *)
Lemma truncate_sequences_do_not_truncate_zero :
  0 < total_len [1; 2; 3] None whitespace_tokenizer false /\
  (forall n stride, 0 < n ->
     lib_truncate_sequences whitespace_tokenizer Z [1; 2; 3] None n
       (str "do_not_truncate") stride = Raise ValueError) /\
  truncate_sequences [1; 2; 3] None whitespace_tokenizer 0
    (str "do_not_truncate") false 0 = ([], Ok ([1; 2; 3], None, [])).
Proof. split; [done|]. split; [|done]. intros n stride _. reflexivity. Qed.

(** C8, amended: with ["do_not_truncate"] and a total length above
    [max_seq_len], the function itself neither truncates nor raises.  When
    [max_seq_len] is not 0 it hands the sequences to the tokenizer's
    truncation primitive with a positive [num_tokens_to_remove] and its
    outcome is the primitive's: it raises exactly when the primitive
    refuses.  When [max_seq_len] is 0 it returns the input unchanged. *)
Theorem truncate_sequences_do_not_truncate {A} (seq_a : list A)
    (seq_b : option (list A)) (tokenizer : Tokenizer) (max_seq_len : Z)
    (with_special_tokens : bool) (stride : Z) :
  max_seq_len < total_len seq_a seq_b tokenizer with_special_tokens ->
  let n := total_len seq_a seq_b tokenizer with_special_tokens - max_seq_len in
  let m := truncate_sequences seq_a seq_b tokenizer max_seq_len
             (str "do_not_truncate") with_special_tokens stride in
  0 < n /\
  result m =
    (if max_seq_len =? 0 then Ok (seq_a, seq_b, [])
     else lib_truncate_sequences tokenizer A seq_a seq_b n
            (str "do_not_truncate") stride) /\
  (max_seq_len <> 0 ->
   last (trace m) =
     Some (tokenizer_truncate_sequences n (str "do_not_truncate") stride)).
Proof.
  intros H n m. subst m. rewrite truncate_sequences_total_len. cbv zeta.
  fold n. split; [subst n; lia|].
  apply Z.ltb_lt in H. rewrite H, andb_true_r.
  destruct (max_seq_len =? 0) eqn:E; simpl.
  - split; [done|]. intros Hne. by apply Z.eqb_eq in E.
  - split; [done|]. intros _. by rewrite last_snoc.
Qed.

Lemma truncate_sequences_do_not_truncate_witness :
  2 < total_len [1; 2; 3] None whitespace_tokenizer false /\
  result (truncate_sequences [1; 2; 3] None whitespace_tokenizer 2
            (str "do_not_truncate") false 0) = Raise ValueError.
Proof.
  assert (2 < total_len [1; 2; 3] None whitespace_tokenizer false) as H by done.
  split; [exact H|].
  exact (proj1 (proj2 (truncate_sequences_do_not_truncate [1; 2; 3] None
                         whitespace_tokenizer 2 false 0 H))).
Defined.

(** ** The tokenizer resolver *)

Lemma module_globals_Tokenizer : module_globals !! "Tokenizer"%string = None.
Proof. by vm_compute. Qed.

Lemma module_globals_RobertaTokenizer :
  module_globals !! "RobertaTokenizer"%string = None.
Proof. by vm_compute. Qed.

(** What the function does when the primary configuration loads: the
    handler that binds [model_type] and [tokenizer_classname] is skipped. *)
Lemma infer_primary_loaded G env path auth_token config :
  AutoConfig env path (or_False auth_token) = Ok config ->
  _infer_tokenizer_classname G env path auth_token =
    ([AutoConfig_from_pretrained path (or_False auth_token)],
     Raise (UnboundLocalError "tokenizer_classname")).
Proof. intros H. unfold _infer_tokenizer_classname. rewrite H. reflexivity. Qed.

(** The sibling path: the primary location has no configuration, the
    secondary one has, and the model type is in the table. *)
Lemma infer_secondary_mapped G env path auth_token config cls :
  AutoConfig env path (or_False auth_token) = Raise OSError ->
  AutoConfig env (secondary_path path) (or_False auth_token) = Ok config ->
  TOKENIZERS_MAPPING env !! model_type config = Some cls ->
  cls <> [] ->
  _infer_tokenizer_classname G env path auth_token =
    ([AutoConfig_from_pretrained path (or_False auth_token);
      AutoConfig_from_pretrained (secondary_path path) (or_False auth_token)],
     Ok (VStr cls)).
Proof.
  intros H1 H2 H3 Hne. unfold _infer_tokenizer_classname.
  rewrite H1. simpl. rewrite H2. simpl. unfold dict_get. rewrite H3. simpl.
  rewrite bool_decide_eq_false_2 by done. reflexivity.
Qed.

(** The secondary location is tried, and only then the fall-back. *)
Lemma infer_secondary_attempted G env path auth_token :
  AutoConfig env path (or_False auth_token) = Raise OSError ->
  exists rest,
    trace (_infer_tokenizer_classname G env path auth_token) =
      AutoConfig_from_pretrained path (or_False auth_token) ::
      AutoConfig_from_pretrained (secondary_path path) (or_False auth_token) ::
      rest.
Proof.
  intros H1. unfold _infer_tokenizer_classname. rewrite H1. simpl.
  destruct (AutoConfig env (secondary_path path) (or_False auth_token))
    as [config|e]; simpl.
  - match goal with
    | |- exists _, trace (let '(_, _) := ?m in _) = _ => destruct m as [t r]
    end.
    by eexists.
  - unfold load_global. destruct (G !! "Tokenizer"%string) as [o|]; simpl;
      [|by eexists].
    destruct (global_attr_call env o "_infer_tokenizer_class_from_string" path);
      simpl; by eexists.
Qed.

Lemma infer_no_config G env path auth_token e :
  AutoConfig env path (or_False auth_token) = Raise OSError ->
  AutoConfig env (secondary_path path) (or_False auth_token) = Raise e ->
  G !! "Tokenizer"%string = None ->
  _infer_tokenizer_classname G env path auth_token =
    ([AutoConfig_from_pretrained path (or_False auth_token);
      AutoConfig_from_pretrained (secondary_path path) (or_False auth_token);
      logger_warning
        "No config file found. Trying to infer Tokenizer type from model name"],
     Raise (NameError "Tokenizer")).
Proof.
  intros H1 H2 HG. unfold _infer_tokenizer_classname, load_global.
  rewrite H1. simpl. rewrite H2. simpl. rewrite HG. reflexivity.
Qed.

Lemma get_tokenizer_infer_raises G env path revision use_fast auth_token kwargs e :
  result (_infer_tokenizer_classname G env path auth_token) = Raise e ->
  result (get_tokenizer G env path revision VNone use_fast auth_token kwargs) =
    Raise (ModelingError "Unable to load tokenizer." e).
Proof.
  intros H. unfold get_tokenizer. simpl.
  destruct (_infer_tokenizer_classname G env path auth_token) as [t [v|e']];
    simpl in *; [discriminate|].
  by inversion H; subst.
Qed.

(** C1 on the code: whenever the configuration loads from the primary
    location, [_infer_tokenizer_classname] reads the local
    [tokenizer_classname] before any assignment to it and raises
    [UnboundLocalError], whatever the table of model types holds;
    [get_tokenizer] without a class override turns that into
    [ModelingError].  The mapped class name is not returned. *)
Theorem infer_primary_unbound_local env path revision use_fast auth_token
    kwargs config :
  AutoConfig env path (or_False auth_token) = Ok config ->
  result (_infer_tokenizer_classname module_globals env path auth_token) =
    Raise (UnboundLocalError "tokenizer_classname") /\
  result (get_tokenizer module_globals env path revision VNone use_fast
            auth_token kwargs) =
    Raise (ModelingError "Unable to load tokenizer."
             (UnboundLocalError "tokenizer_classname")).
Proof.
  intros H.
  assert (result (_infer_tokenizer_classname module_globals env path auth_token) =
          Raise (UnboundLocalError "tokenizer_classname")) as Hr
    by (by rewrite (infer_primary_loaded _ _ _ _ _ H)).
  split; [exact Hr|]. by apply get_tokenizer_infer_raises.
Qed.

Lemma infer_primary_unbound_local_witness :
  AutoConfig sample_env (str "bert-base-uncased") (or_False VNone) = Ok sample_config /\
  TOKENIZERS_MAPPING sample_env !! model_type sample_config = Some (str "Bert") /\
  result (_infer_tokenizer_classname module_globals sample_env
            (str "bert-base-uncased") VNone) =
    Raise (UnboundLocalError "tokenizer_classname").
Proof.
  assert (AutoConfig sample_env (str "bert-base-uncased") (or_False VNone)
          = Ok sample_config) as H by reflexivity.
  split; [exact H|]. split; [by vm_compute|].
  exact (proj1 (infer_primary_unbound_local sample_env (str "bert-base-uncased")
                  VNone true VNone [] sample_config H)).
Defined.

(** C2 on the code: when neither location yields a configuration, the
    fall-back reads the global name [Tokenizer], which the module does not
    bind, and [NameError] is raised before the model name is scanned for a
    hint; [get_tokenizer] turns that into [ModelingError]. *)
Theorem infer_no_config_NameError env path revision use_fast auth_token
    kwargs e :
  AutoConfig env path (or_False auth_token) = Raise OSError ->
  AutoConfig env (secondary_path path) (or_False auth_token) = Raise e ->
  result (_infer_tokenizer_classname module_globals env path auth_token) =
    Raise (NameError "Tokenizer") /\
  result (get_tokenizer module_globals env path revision VNone use_fast
            auth_token kwargs) =
    Raise (ModelingError "Unable to load tokenizer." (NameError "Tokenizer")).
Proof.
  intros H1 H2.
  assert (result (_infer_tokenizer_classname module_globals env path auth_token) =
          Raise (NameError "Tokenizer")) as Hr
    by (by rewrite (infer_no_config _ _ _ _ _ H1 H2 module_globals_Tokenizer)).
  split; [exact Hr|]. by apply get_tokenizer_infer_raises.
Qed.

Lemma infer_no_config_NameError_witness :
  contains (str "roberta-base") (str "roberta") = true /\
  head (candidates (TOKENIZERS_STRING_HINTS sample_env) (str "roberta-base"))
    = Some (str "Roberta") /\
  result (get_tokenizer module_globals sample_env (str "roberta-base") VNone
            VNone true VNone []) =
    Raise (ModelingError "Unable to load tokenizer." (NameError "Tokenizer")).
Proof.
  split; [reflexivity|]. split; [by vm_compute|].
  refine (proj2 (infer_no_config_NameError sample_env (str "roberta-base")
                   VNone true VNone [] OSError _ _)); reflexivity.
Defined.

(** ** Whitespace normalisation *)

Lemma sub_whitespace_length text : length (sub_whitespace text) = length text.
Proof. unfold sub_whitespace. apply length_map. Qed.

Lemma sub_whitespace_lookup text (i : nat) c :
  text !! i = Some c ->
  sub_whitespace text !! i = Some (if is_space c then SPACE else c).
Proof.
  revert i. induction text as [|a text IH]; intros [|i] H; simpl in *;
    try discriminate.
  - by inversion H; subst.
  - by apply IH.
Qed.

Lemma sub_whitespace_idempotent text :
  sub_whitespace (sub_whitespace text) = sub_whitespace text.
Proof.
  induction text as [|a text IH]; [done|].
  simpl. f_equal; [|exact IH].
  destruct (is_space a) eqn:E; [done|]. by rewrite E.
Qed.

(** C5, as stated, fails: the two newlines between [a] and [b] are a single
    maximal run of whitespace, collapsing it would give ["a b"], and the
    text handed to the tokenizer is ["a  b"], with two spaces. *)
Lemma whitespace_runs_not_collapsed :
  let text := str "a" ++ [10%N; 10%N] ++ str "b" in
  trace (tokenize_with_metadata module_globals text sample_fast_tokenizer) =
    [tokenizer_encode_plus (str "a  b") true] /\
  spec_collapse_whitespace_runs text = str "a b" /\
  str "a  b" <> spec_collapse_whitespace_runs text.
Proof. split; [by vm_compute|]. split; [by vm_compute|]. by vm_compute. Qed.

(** C5, amended: before tokenization every whitespace character (newlines
    and tabs included) is replaced, one for one, by a single space; runs
    are not collapsed, so the text tokenized has the length of the input and
    differs from it only where the input has whitespace.  The function
    depends on its input only through that text, and on the fast path it is
    the text handed to the tokenizer. *)
Theorem whitespace_replaced_one_for_one (text : pystr) (tokenizer : Tokenizer) :
  length (sub_whitespace text) = length text /\
  (forall (i : nat) c, text !! i = Some c ->
     sub_whitespace text !! i = Some (if is_space c then SPACE else c)) /\
  tokenize_with_metadata module_globals text tokenizer =
    tokenize_with_metadata module_globals (sub_whitespace text) tokenizer /\
  (is_fast tokenizer = true ->
   head (trace (tokenize_with_metadata module_globals text tokenizer)) =
     Some (tokenizer_encode_plus (sub_whitespace text) true)) /\
  (is_fast tokenizer = false ->
   tokenize_with_metadata module_globals text tokenizer =
     let words := split_space (sub_whitespace text) in
     let* r := _words_to_tokens module_globals words
                 (word_offsets_from 0 words) tokenizer in
     ret {| d_tokens := map VStr r.1.1; d_offsets := r.1.2;
            d_start_of_word := map VBool r.2 |}).
Proof.
  split; [apply sub_whitespace_length|].
  split; [apply sub_whitespace_lookup|].
  split; [unfold tokenize_with_metadata; by rewrite sub_whitespace_idempotent|].
  split.
  - intros Hf. unfold tokenize_with_metadata. rewrite Hf.
    destruct (encode_plus tokenizer (sub_whitespace text) true) as [be|e];
      simpl; [|done].
    match goal with
    | |- head (trace (let '(_, _) := ?m in _)) = _ => by destruct m
    end.
  - intros Hf. unfold tokenize_with_metadata. rewrite Hf. cbv zeta.
    apply bind_ext. by intros [[tokens' offsets'] start_of_word'].
Qed.

(** ** The slow path: _words_to_tokens *)

Lemma token_body_result tokenizer w_off offs sow first tok r :
  result (token_body tokenizer (w_off, offs, sow, first) tok) = Ok r ->
  exists w_off', r = (w_off', offs ++ [w_off], sow ++ [first], false).
Proof.
  unfold token_body. rewrite result_bind. unfold getitem.
  destruct (special_tokens_map tokenizer !! str "unk_token") as [unk|];
    simpl; [|discriminate].
  destruct first; simpl; intros [= <-]; by eexists.
Qed.

Lemma token_loop_result tokenizer toks : forall w_off offs sow first r,
  result (for_each toks (token_body tokenizer) (w_off, offs, sow, first)) = Ok r ->
  exists w_off' offs_new,
    r = (w_off', offs ++ offs_new, sow ++ word_flags toks first,
         match toks with [] => first | _ => false end) /\
    length offs_new = length toks.
Proof.
  induction toks as [|tok toks IH]; intros w_off offs sow first r H.
  - simpl in H. inversion H; subst. exists w_off, [].
    by rewrite !app_nil_r.
  - rewrite result_for_each_cons in H.
    destruct (result (token_body tokenizer (w_off, offs, sow, first) tok))
      as [s1|e] eqn:E; [|discriminate].
    apply token_body_result in E as [w1 ->].
    apply IH in H as (w2 & offs_new & -> & Hlen).
    exists w2, (w_off :: offs_new). split; [|simpl; by rewrite Hlen].
    rewrite <- !app_assoc. simpl. repeat f_equal; by destruct toks.
Qed.

Lemma word_flags_length toks first : length (word_flags toks first) = length toks.
Proof. destruct toks; simpl; [done|]. by rewrite length_replicate. Qed.

Lemma result_log_idx (idx : Z) :
  result (if idx mod 500000 =? 0
          then extern (logger_info idx) (Ok tt) else ret tt) = Ok tt.
Proof. by destruct (idx mod 500000 =? 0). Qed.

Lemma len_eqb_0 {A} (l : list A) : (len l =? 0) = bool_decide (l = []).
Proof. by destruct l. Qed.

(** One round of the loop over the words: either the word is skipped, or
    its tokens, as many offsets and as many flags are appended, the first
    of these flags being [True]. *)
Lemma word_body_result G tokenizer s w w_off s' :
  result (word_body G tokenizer s (w, w_off)) = Ok s' ->
  st_idx s' = st_idx s + 1 /\
  ((st_tokens s' = st_tokens s /\
    st_token_offsets s' = st_token_offsets s /\
    st_start_of_word s' = st_start_of_word s) \/
   exists toks offs_new,
     toks <> [] /\ length offs_new = length toks /\
     st_tokens s' = st_tokens s ++ toks /\
     st_token_offsets s' = st_token_offsets s ++ offs_new /\
     st_start_of_word s' = st_start_of_word s ++ word_flags toks true).
Proof.
  unfold word_body. rewrite result_bind, result_log_idx.
  rewrite !len_eqb_0. case_bool_decide as Hw.
  { intros [= <-]. simpl. split; [done|]. by left. }
  rewrite result_bind.
  match goal with
  | |- context [result ?m] =>
      destruct (result m) as [tokens_word|e]; [|discriminate]
  end.
  rewrite len_eqb_0. case_bool_decide as Ht.
  { intros [= <-]. simpl. split; [done|]. by left. }
  rewrite result_bind.
  match goal with
  | |- context [result ?m] => destruct (result m) as [r|e] eqn:E; [|discriminate]
  end.
  simpl in E. apply token_loop_result in E as (w' & offs_new & -> & Hlen).
  intros [= <-]. simpl. split; [done|]. right.
  exists tokens_word, offs_new. by repeat split.
Qed.

Lemma word_body_aligned G tokenizer s wo s' :
  aligned_state s -> result (word_body G tokenizer s wo) = Ok s' ->
  aligned_state s'.
Proof.
  destruct wo as [w w_off]. unfold aligned_state. intros (H1 & H2 & H3) H.
  apply word_body_result in H
    as [_ [(-> & -> & ->)|(toks & offs & Hne & Hlen & -> & -> & ->)]].
  { done. }
  rewrite !length_app, word_flags_length.
  split; [lia|]. split; [lia|]. right.
  destruct H3 as [-> | H3].
  - by destruct toks.
  - destruct (st_start_of_word s); [done|]. exact H3.
Qed.

Lemma words_to_tokens_aligned G words word_offsets tokenizer toks offs sow :
  result (_words_to_tokens G words word_offsets tokenizer) = Ok (toks, offs, sow) ->
  length toks = length offs /\ length offs = length sow /\
  (sow = [] \/ head sow = Some true).
Proof.
  unfold _words_to_tokens. rewrite result_bind.
  match goal with
  | |- context [result ?m] => destruct (result m) as [s|e] eqn:E; [|discriminate]
  end.
  intros [= <- <- <-].
  eapply (for_each_invariant aligned_state) in E; [exact E| |].
  - intros s0 x s1 _. apply word_body_aligned.
  - unfold aligned_state. simpl. by auto.
Qed.

(** ** The fast path: start-of-word flags from the word indices *)

Lemma add_one_length a : forall r, add_one a = Ok r -> length r = length a.
Proof.
  induction a as [|[x|] a IH]; intros r H; simpl in H.
  - by inversion H.
  - destruct (add_one a) as [r'|e]; [|discriminate].
    inversion H; subst. simpl. f_equal. by apply IH.
  - discriminate.
Qed.

Lemma ediff1d_length a : length (ediff1d a) = pred (length a).
Proof.
  induction a as [|x [|y a] IH]; [done|done|].
  change (ediff1d (x :: y :: a)) with ((y - x) :: ediff1d (y :: a)).
  simpl length in *. by rewrite IH.
Qed.

Lemma fast_start_of_word_words ws l :
  result (fast_start_of_word ws) = Ok l ->
  exists x rest w3,
    ws = x :: rest /\ (2 <= length ws)%nat /\
    add_one (<[(length ws - 1)%nat :=
                 default None ((Some (-1) :: rest) !! (length ws - 2)%nat)]>
               (Some (-1) :: rest)) = Ok w3 /\
    l = 0 :: ediff1d w3.
Proof.
  unfold fast_start_of_word. destruct ws as [|x rest]; [discriminate|].
  rewrite result_bind. cbn [result ret snd length].
  case_bool_decide as Hn; [discriminate|].
  rewrite !result_bind. unfold index.
  destruct ((Some (-1) :: rest) !! (S (length rest) - 2)%nat) as [w|] eqn:Ew.
  2:{ apply lookup_ge_None in Ew. simpl in Ew. lia. }
  cbn [result ret snd lift].
  destruct (add_one _) as [w3|e] eqn:E3; [|discriminate].
  intros [= <-]. exists x, rest, w3. split; [done|]. split; [simpl; lia|].
  split; [|done]. simpl length. rewrite Ew. exact E3.
Qed.

Lemma fast_start_of_word_length ws l :
  result (fast_start_of_word ws) = Ok l ->
  length l = length ws /\ head l = Some 0.
Proof.
  intros H.
  apply fast_start_of_word_words in H as (x & rest & w3 & Hws & Hn & H3 & ->).
  split; [|done]. apply add_one_length in H3.
  rewrite length_insert in H3. simpl in *. rewrite ediff1d_length, H3.
  rewrite Hws. simpl. done.
Qed.

Lemma fast_start_of_word_second ws w l :
  (3 <= length ws)%nat -> ws !! 1%nat = Some (Some w) ->
  result (fast_start_of_word ws) = Ok l ->
  l !! 1%nat = Some (w + 1).
Proof.
  intros Hn Hw H.
  apply fast_start_of_word_words in H as (x & rest & w3 & Hws & _ & H3 & ->).
  destruct ws as [|x0 [|x1 [|x2 ws]]]; simpl in Hn; try lia.
  inversion Hws; subst rest. simpl in Hw. inversion Hw; subst x1.
  simpl in H3.
  destruct (add_one _) as [r|e] in H3; [|discriminate].
  inversion H3; subst w3. simpl. f_equal. lia.
Qed.

(** ** tokenize_with_metadata *)

Lemma tokenize_with_metadata_fast G text tokenizer d :
  is_fast tokenizer = true ->
  result (tokenize_with_metadata G text tokenizer) = Ok d ->
  exists be e l,
    encode_plus tokenizer (sub_whitespace text) true = Ok be /\
    head (encodings be) = Some e /\
    result (fast_start_of_word (words e)) = Ok l /\
    d = {| d_tokens := map VInt (input_ids be);
           d_offsets := map fst (offset_mapping be);
           d_start_of_word := map VInt l |}.
Proof.
  intros Hf. unfold tokenize_with_metadata. rewrite Hf, result_bind.
  unfold extern at 1. cbn [result snd].
  destruct (encode_plus tokenizer (sub_whitespace text) true) as [be|e0];
    [|discriminate].
  rewrite result_bind. unfold index.
  destruct (encodings be) as [|e es] eqn:Ee; [discriminate|].
  cbn [lookup list_lookup result ret snd]. rewrite result_bind.
  destruct (result (fast_start_of_word (words e))) as [l|e1] eqn:El;
    [|discriminate].
  intros [= <-]. exists be, e, l. rewrite Ee. by repeat split.
Qed.

Lemma tokenize_with_metadata_slow G text tokenizer d :
  is_fast tokenizer = false ->
  result (tokenize_with_metadata G text tokenizer) = Ok d ->
  exists toks offs sow,
    result (_words_to_tokens G (split_space (sub_whitespace text))
              (word_offsets_from 0 (split_space (sub_whitespace text)))
              tokenizer) = Ok (toks, offs, sow) /\
    d = {| d_tokens := map VStr toks; d_offsets := offs;
           d_start_of_word := map VBool sow |}.
Proof.
  intros Hf. unfold tokenize_with_metadata. rewrite Hf. cbv zeta.
  rewrite result_bind.
  destruct (result (_words_to_tokens _ _ _ _)) as [[[toks offs] sow]|e];
    [|discriminate].
  intros [= <-]. by exists toks, offs, sow.
Qed.

(** C7: the dictionary returned by [tokenize_with_metadata] has as many
    offsets and as many start-of-word flags as tokens, on the slow path for
    every tokenizer, and on the fast path for every tokenizer whose
    encoding of the text is aligned (one id, one offset pair and one word
    index per token), which is what the library's fast tokenizers return. *)
Theorem tokenize_with_metadata_equal_lengths (text : pystr)
    (tokenizer : Tokenizer) (d : tokenized_dict) :
  (forall be, encode_plus tokenizer (sub_whitespace text) true = Ok be ->
              aligned_encoding be) ->
  result (tokenize_with_metadata module_globals text tokenizer) = Ok d ->
  length (d_tokens d) = length (d_offsets d) /\
  length (d_offsets d) = length (d_start_of_word d).
Proof.
  intros Hal H. destruct (is_fast tokenizer) eqn:Hf.
  - apply tokenize_with_metadata_fast in H as (be & e & l & Hbe & He & Hl & ->);
      [|done].
    apply fast_start_of_word_length in Hl as [Hl _].
    destruct (Hal be Hbe e He) as [H1 H2]. simpl.
    rewrite !length_map. lia.
  - apply tokenize_with_metadata_slow in H as (toks & offs & sow & Hw & ->);
      [|done].
    apply words_to_tokens_aligned in Hw as (H1 & H2 & _). simpl.
    rewrite !length_map. lia.
Qed.

Lemma tokenize_with_metadata_equal_lengths_witness :
  exists d,
    result (tokenize_with_metadata module_globals (str "Berlin is")
              sample_fast_tokenizer) = Ok d /\
    length (d_tokens d) = 4%nat /\
    length (d_tokens d) = length (d_offsets d) /\
    length (d_offsets d) = length (d_start_of_word d).
Proof.
  eexists. split; [vm_compute; reflexivity|]. split; [reflexivity|].
  refine (tokenize_with_metadata_equal_lengths (str "Berlin is")
            sample_fast_tokenizer _ _ _).
  - intros be Hbe. vm_compute in Hbe. inversion Hbe; subst be.
    intros e He. vm_compute in He. inversion He; subst e. by vm_compute.
  - vm_compute. reflexivity.
Defined.

(** C6, as stated, fails on the fast path: the tokenization of
    ["Berlin is"] is not empty and the flag of its first token is 0. *)
Lemma fast_first_token_not_word_start :
  exists d,
    result (tokenize_with_metadata module_globals (str "Berlin is")
              sample_fast_tokenizer) = Ok d /\
    d_tokens d <> [] /\
    head (d_start_of_word d) = Some (VInt 0) /\
    truthy (VInt 0) = false.
Proof.
  eexists. split; [vm_compute; reflexivity|]. split; [done|]. by split.
Qed.

(** C6, amended: on the slow path the first token of every non-empty
    result is marked as a word start.  On the fast path the flag of the
    first position is always 0, not a word start; it is the token at the
    second position that is marked (with the positive value [w + 1]) when
    the encoding has at least three positions and that token has a source
    word index [w >= 0]. *)
Theorem first_token_word_start (text : pystr) (tokenizer : Tokenizer)
    (d : tokenized_dict) :
  result (tokenize_with_metadata module_globals text tokenizer) = Ok d ->
  (is_fast tokenizer = false -> d_tokens d <> [] ->
   head (d_start_of_word d) = Some (VBool true)) /\
  (is_fast tokenizer = true ->
   head (d_start_of_word d) = Some (VInt 0) /\
   forall be e w,
     encode_plus tokenizer (sub_whitespace text) true = Ok be ->
     head (encodings be) = Some e ->
     (3 <= length (words e))%nat -> words e !! 1%nat = Some (Some w) -> 0 <= w ->
     exists flag, d_start_of_word d !! 1%nat = Some (VInt flag) /\ 0 < flag).
Proof.
  intros H. split; intros Hf.
  - apply tokenize_with_metadata_slow in H as (toks & offs & sow & Hw & ->);
      [|done].
    apply words_to_tokens_aligned in Hw as (H1 & H2 & H3). simpl.
    intros Hne. destruct H3 as [-> | H3].
    + destruct offs; [|done]. by destruct toks.
    + destruct sow as [|b sow]; [done|]. simpl in *. by inversion H3.
  - apply tokenize_with_metadata_fast in H as (be & e & l & Hbe & He & Hl & ->);
      [|done].
    simpl. split.
    + apply fast_start_of_word_length in Hl as [_ Hl].
      destruct l; [done|]. simpl in *. by inversion Hl.
    + intros be' e' w Hbe' He' Hn Hw Hpos.
      rewrite Hbe in Hbe'. inversion Hbe'; subst be'.
      rewrite He in He'. inversion He'; subst e'.
      pose proof (fast_start_of_word_second _ _ _ Hn Hw Hl) as H1.
      exists (w + 1). split; [|lia].
      change (map VInt l) with (VInt <$> l).
      by rewrite list_lookup_fmap, H1.
Qed.

Lemma first_token_word_start_witness :
  (exists d,
     result (tokenize_with_metadata module_globals (str "Berlin")
               whitespace_tokenizer) = Ok d /\
     d_tokens d <> [] /\
     head (d_start_of_word d) = Some (VBool true)) /\
  (exists d,
     result (tokenize_with_metadata module_globals (str "Berlin is")
               sample_fast_tokenizer) = Ok d /\
     head (d_start_of_word d) = Some (VInt 0)).
Proof.
  split.
  - eexists. split; [vm_compute; reflexivity|]. split; [done|].
    refine (proj1 (first_token_word_start (str "Berlin") whitespace_tokenizer
                     _ _) _ _); [vm_compute; reflexivity|reflexivity|done].
  - eexists. split; [vm_compute; reflexivity|].
    refine (proj1 (proj2 (first_token_word_start (str "Berlin is")
                            sample_fast_tokenizer _ _) _));
      [vm_compute; reflexivity|reflexivity].
Defined.

(** ** The slow path on ["Berlin is a city"] *)

Lemma word_body_tokens_word G tokenizer s w w_off unk :
  special_tokens_map tokenizer !! str "unk_token" = Some unk ->
  w <> [] ->
  (if len (st_tokens s) =? 0
   then tokenize tokenizer w false = Ok [w]
   else exists cls, G !! "RobertaTokenizer"%string = Some cls /\
          tokenize tokenizer w (bool_decide (tok_type tokenizer = cls)) = Ok [w]) ->
  result (word_body G tokenizer s (w, w_off)) =
    Ok {| st_idx := st_idx s + 1;
          st_tokens := st_tokens s ++ [w];
          st_token_offsets := st_token_offsets s ++ [w_off];
          st_start_of_word := st_start_of_word s ++ [true] |}.
Proof.
  intros Hunk Hw Htok. unfold word_body.
  rewrite result_bind, result_log_idx, len_eqb_0.
  rewrite bool_decide_eq_false_2 by done.
  rewrite result_bind. cbn [st_tokens].
  assert (result
    (if len (st_tokens s) =? 0
     then extern (tokenizer_tokenize w false) (tokenize tokenizer w false)
     else
       let* RobertaTokenizer_cls := load_global G "RobertaTokenizer" in
       if bool_decide (tok_type tokenizer = RobertaTokenizer_cls)
       then extern (tokenizer_tokenize w true) (tokenize tokenizer w true)
       else extern (tokenizer_tokenize w false) (tokenize tokenizer w false))
    = Ok [w]) as ->.
  { destruct (len (st_tokens s) =? 0); [exact Htok|].
    destruct Htok as (cls & HG & Htok). unfold load_global. rewrite HG.
    rewrite result_bind. cbn [result ret snd].
    by destruct (bool_decide (tok_type tokenizer = cls)). }
  rewrite len_eqb_0, bool_decide_eq_false_2 by done.
  rewrite result_bind, result_for_each_cons.
  unfold token_body at 1. rewrite result_bind. unfold getitem. rewrite Hunk.
  by cbn.
Qed.

Lemma word_body_later_word_unbound G tokenizer s w w_off :
  G !! "RobertaTokenizer"%string = None ->
  w <> [] -> st_tokens s <> [] ->
  result (word_body G tokenizer s (w, w_off)) =
    Raise (NameError "RobertaTokenizer").
Proof.
  intros HG Hw Ht. unfold word_body.
  rewrite result_bind, result_log_idx, len_eqb_0.
  rewrite bool_decide_eq_false_2 by done.
  rewrite result_bind. cbn [st_tokens].
  rewrite len_eqb_0, bool_decide_eq_false_2 by done.
  unfold load_global. rewrite HG. by rewrite result_bind.
Qed.

Lemma berlin_words :
  split_space (sub_whitespace (str "Berlin is a city")) =
    [str "Berlin"; str "is"; str "a"; str "city"].
Proof. by vm_compute. Qed.

Lemma berlin_word_offsets :
  word_offsets_from 0 [str "Berlin"; str "is"; str "a"; str "city"] =
    [0; 7; 10; 12].
Proof. by vm_compute. Qed.

(** The function as it would run in a module that binds the name
    [RobertaTokenizer]: the offsets and flags of the specification. *)
Lemma berlin_is_a_city_with_import G tokenizer unk cls :
  G !! "RobertaTokenizer"%string = Some cls ->
  is_fast tokenizer = false ->
  (forall w b, tokenize tokenizer w b = Ok [w]) ->
  special_tokens_map tokenizer !! str "unk_token" = Some unk ->
  result (tokenize_with_metadata G (str "Berlin is a city") tokenizer) =
    Ok {| d_tokens := map VStr [str "Berlin"; str "is"; str "a"; str "city"];
          d_offsets := [0; 7; 10; 12];
          d_start_of_word := map VBool [true; true; true; true] |}.
Proof.
  intros HG Hf Htok Hunk. unfold tokenize_with_metadata. rewrite Hf. cbv zeta.
  rewrite berlin_words, berlin_word_offsets.
  rewrite result_bind. unfold _words_to_tokens. rewrite result_bind.
  cbn [zip zip_with].
  do 4 (rewrite result_for_each_cons;
        erewrite word_body_tokens_word;
        [ | exact Hunk | by vm_compute
          | cbn [st_tokens]; rewrite len_eqb_0;
            case_bool_decide; [apply Htok | eexists; split; [exact HG|apply Htok]] ]).
  reflexivity.
Qed.

(** C4 on the code: for every slow tokenizer whose splitter returns each
    word as one token, ["Berlin is a city"] is not tokenized: at the second
    word the loop reads the global name [RobertaTokenizer], which the module
    does not bind, and [NameError] is raised.  No offsets and no flags are
    produced. *)
Theorem berlin_is_a_city_NameError (tokenizer : Tokenizer) :
  is_fast tokenizer = false ->
  (forall w b, tokenize tokenizer w b = Ok [w]) ->
  is_Some (special_tokens_map tokenizer !! str "unk_token") ->
  result (tokenize_with_metadata module_globals (str "Berlin is a city")
            tokenizer) = Raise (NameError "RobertaTokenizer").
Proof.
  intros Hf Htok [unk Hunk]. unfold tokenize_with_metadata. rewrite Hf. cbv zeta.
  rewrite berlin_words, berlin_word_offsets.
  rewrite result_bind. unfold _words_to_tokens. rewrite result_bind.
  cbn [zip zip_with].
  rewrite result_for_each_cons.
  erewrite word_body_tokens_word;
    [ | exact Hunk | by vm_compute | cbn; apply Htok ].
  rewrite result_for_each_cons.
  rewrite word_body_later_word_unbound;
    [done | exact module_globals_RobertaTokenizer | by vm_compute | done].
Qed.

Lemma berlin_is_a_city_NameError_witness :
  is_fast whitespace_tokenizer = false /\
  result (tokenize_with_metadata module_globals (str "Berlin is a city")
            whitespace_tokenizer) = Raise (NameError "RobertaTokenizer") /\
  result (tokenize_with_metadata globals_with_roberta (str "Berlin is a city")
            whitespace_tokenizer) =
    Ok {| d_tokens := map VStr [str "Berlin"; str "is"; str "a"; str "city"];
          d_offsets := [0; 7; 10; 12];
          d_start_of_word := map VBool [true; true; true; true] |}.
Proof.
  split; [reflexivity|]. split; [|by vm_compute].
  refine (berlin_is_a_city_NameError whitespace_tokenizer _ _ _).
  - reflexivity.
  - intros w b. reflexivity.
  - exists (str "[UNK]"). by vm_compute.
Defined.

(** ** tokenize_batch_question_answering *)

Lemma for_each_append {A B} (R : A -> list B -> Prop) (xs : list A)
    (body : list B -> A -> M (list B)) :
  (forall s x s1, x ∈ xs -> result (body s x) = Ok s1 ->
     exists bs, s1 = s ++ bs /\ R x bs) ->
  forall acc s', result (for_each xs body acc) = Ok s' ->
  exists bss, s' = acc ++ concat bss /\ Forall2 R xs bss.
Proof.
  induction xs as [|x xs IH]; intros Hstep acc s' H.
  - simpl in H. inversion H; subst. exists []. simpl.
    by rewrite app_nil_r.
  - rewrite result_for_each_cons in H.
    destruct (result (body acc x)) as [s1|e] eqn:E; [|discriminate].
    apply Hstep in E as (bs & -> & HR); [|by left].
    apply IH in H as (bss & -> & HF).
    + exists (bs :: bss). simpl. rewrite app_assoc. by split; [|constructor].
    + intros s x' s2 Hin. apply Hstep. by right.
Qed.

Lemma Forall2_singletons {A B} (R : A -> B -> Prop) xs bss :
  Forall2 (fun x bs => exists b, bs = [b] /\ R x b) xs bss ->
  Forall2 R xs (concat bss).
Proof.
  induction 1 as [|x bs xs bss (b & -> & HR) _ IH]; simpl; by constructor.
Qed.

Lemma Forall2_concat_map {A B C} (R : C -> B -> Prop) (g : A -> list C) xs bss :
  Forall2 (fun x bs => Forall2 R (g x) bs) xs bss ->
  Forall2 R (concat (map g xs)) (concat bss).
Proof.
  induction 1 as [|x bs xs bss HR _ IH]; simpl; [constructor|].
  by apply Forall2_app.
Qed.

Lemma result_index {A} (l : list A) (i : nat) x :
  result (index l i) = Ok x -> l !! i = Some x.
Proof. unfold index. destruct (l !! i); [by intros [= ->]|discriminate]. Qed.

Lemma start_of_words_batch_result es sb :
  result (for_each es
            (fun acc e => let* s := _get_start_of_word_QA (words e) in
                          ret (acc ++ [s])) []) = Ok sb ->
  start_of_words_of es sb.
Proof.
  intros H.
  apply (for_each_append
           (fun e bs => exists s, bs = [s] /\
              result (_get_start_of_word_QA (words e)) = Ok s)) in H.
  - destruct H as (bss & -> & HF). simpl. by apply Forall2_singletons.
  - intros acc e s1 _. rewrite result_bind.
    destruct (result (_get_start_of_word_QA (words e))) as [s|?];
      [|discriminate].
    cbn [result ret snd]. intros [= <-]. exists [s]. split; [done|].
    by exists s.
Qed.

Lemma question_body_result tokenizer indices tdb tb ob sb i_doc d baskets
    i_q q s1 :
  tb = batch_input_ids tdb ->
  ob = map (map fst) (batch_offset_mapping tdb) ->
  start_of_words_of (batch_encodings tdb) sb ->
  result (question_body tokenizer indices tdb tb ob sb i_doc (context d)
            baskets (i_q, q)) = Ok s1 ->
  exists b, s1 = baskets ++ [b] /\
    basket_for tokenizer indices tdb ((i_doc, d), (i_q, q)) b.
Proof.
  intros -> -> Hsb. unfold question_body.
  rewrite result_bind. unfold extern at 1. cbn [result snd].
  destruct (encode_plus tokenizer (question q) false) as [tq|?] eqn:Eq;
    [|discriminate].
  rewrite result_bind.
  destruct (result (index (encodings tq) 0)) as [q_e|?] eqn:Eqe;
    [|discriminate].
  rewrite result_bind.
  destruct (result (_get_start_of_word_QA (words q_e))) as [q_sow|?] eqn:Eqs;
    [|discriminate].
  rewrite result_bind.
  destruct (result (index indices i_doc)) as [index_i|?] eqn:Ei;
    [|discriminate].
  rewrite result_bind.
  destruct (result (index (batch_input_ids tdb) i_doc)) as [d_toks|?] eqn:Et;
    [|discriminate].
  rewrite result_bind.
  destruct (result (index (map (map fst) (batch_offset_mapping tdb)) i_doc))
    as [d_offs|?] eqn:Eo; [|discriminate].
  rewrite result_bind.
  destruct (result (index sb i_doc)) as [d_sow|?] eqn:Es; [|discriminate].
  rewrite result_bind.
  destruct (result (index (batch_encodings tdb) i_doc)) as [doc_e|?] eqn:Ee;
    [|discriminate].
  rewrite result_bind, Eqe. cbn [result ret snd].
  intros [= <-]. eexists. split; [reflexivity|].
  apply result_index in Eqe, Ei, Et, Eo, Es, Ee.
  unfold basket_for. exists index_i, tq. cbn [raw id_internal id_external samples
    document_text document_tokens document_offsets document_start_of_word
    question_text question_tokens question_offsets question_start_of_word
    raw_answers document_tokens_strings question_tokens_strings].
  do 12 (split; [done|]).
  exists doc_e, q_e. split; [done|]. split; [|done].
  exact (Forall2_lookup_lr _ _ _ _ _ _ Hsb Ee Es).
Qed.

Lemma document_body_result tokenizer indices tdb tb ob sb baskets i_doc d s1 :
  tb = batch_input_ids tdb ->
  ob = map (map fst) (batch_offset_mapping tdb) ->
  start_of_words_of (batch_encodings tdb) sb ->
  result (document_body tokenizer indices tdb tb ob sb baskets (i_doc, d)) = Ok s1 ->
  exists bs, s1 = baskets ++ bs /\
    Forall2 (basket_for tokenizer indices tdb)
      (map (fun iq => ((i_doc, d), iq)) (enumerate (qas d))) bs.
Proof.
  intros Htb Hob Hsb H. unfold document_body in H.
  apply (for_each_append
           (fun iq bs => exists b, bs = [b] /\
              basket_for tokenizer indices tdb ((i_doc, d), iq) b)) in H.
  - destruct H as (bss & -> & HF). exists (concat bss). split; [done|].
    apply Forall2_fmap_l. apply Forall2_singletons.
    eapply Forall2_impl; [exact HF|]. by intros x bs (b & -> & Hb); eexists.
  - intros s [i_q q] s2 _ Hs.
    apply (question_body_result _ _ _ _ _ _ _ _ _ _ _ _ Htb Hob Hsb) in Hs
      as (b & -> & Hb).
    exists [b]. split; [done|]. by exists b.
Qed.

Lemma result_assert cond : result (assert cond) = Ok tt -> cond = true.
Proof. by destruct cond. Qed.

(** The result of a run, described basket by basket. *)
Lemma tokenize_batch_question_answering_result pre_baskets tokenizer indices bs :
  result (tokenize_batch_question_answering pre_baskets tokenizer indices) = Ok bs ->
  length indices = length pre_baskets /\
  is_fast tokenizer = true /\
  exists tdb,
    batch_encode_plus tokenizer (map context pre_baskets) = Ok tdb /\
    Forall2 (basket_for tokenizer indices tdb) (qa_pairs pre_baskets) bs.
Proof.
  unfold tokenize_batch_question_answering.
  rewrite result_bind.
  destruct (result (assert _)) as [[]|e] eqn:E1; [|discriminate].
  apply result_assert, bool_decide_eq_true in E1.
  rewrite result_bind.
  destruct (result (assert _)) as [[]|e] eqn:E2; [|discriminate].
  apply result_assert in E2.
  rewrite result_bind. unfold extern at 1. cbn [result snd].
  destruct (batch_encode_plus tokenizer (map context pre_baskets)) as [tdb|e];
    [|discriminate].
  rewrite result_bind.
  match goal with
  | |- context [result ?m] =>
      destruct (result m) as [sb|e] eqn:Esb; [|discriminate]
  end.
  apply start_of_words_batch_result in Esb.
  intros H. split; [done|]. split; [done|]. exists tdb. split; [done|].
  apply (for_each_append
           (fun id bs => Forall2 (basket_for tokenizer indices tdb)
                           (map (fun iq => (id, iq)) (enumerate (qas id.2))) bs))
    in H.
  - destruct H as (bss & -> & HF). simpl. unfold qa_pairs.
    by apply Forall2_concat_map.
  - intros s [i_doc d] s1 _ Hs.
    by apply (document_body_result _ _ _ _ _ _ _ _ _ _ eq_refl eq_refl Esb) in Hs.
Qed.

Lemma enumerate_snd {A} (l : list A) : map snd (enumerate l) = l.
Proof. unfold enumerate. apply snd_zip. by rewrite length_seq. Qed.

Lemma qa_pairs_length pre_baskets :
  length (qa_pairs pre_baskets) =
  list_sum (map (fun d => length (qas d)) pre_baskets).
Proof.
  unfold qa_pairs. rewrite length_concat, map_map.
  rewrite <- (enumerate_snd pre_baskets) at 2. rewrite map_map.
  f_equal. apply map_ext. intros [i d]. simpl.
  rewrite length_map. unfold enumerate.
  rewrite length_zip_with_r_eq; [done|]. by rewrite length_seq.
Qed.

(** C3, as stated, fails: a batch of one document with two questions
    yields two baskets, not one. *)
Lemma two_questions_two_baskets :
  exists bs,
    result (tokenize_batch_question_answering [sample_doc_two_questions]
              sample_fast_tokenizer [10]) = Ok bs /\
    length bs = 2%nat /\
    length [sample_doc_two_questions] = 1%nat /\
    map (fun b => question_text (raw b)) bs =
      [str "What is Berlin"; str "Where is Berlin"].
Proof. eexists. split; [vm_compute; reflexivity|]. by repeat split. Qed.

(** ** Internal ids *)

Lemma str_inj s1 s2 : str s1 = str s2 -> s1 = s2.
Proof.
  unfold str. intros H.
  rewrite <- (string_of_list_ascii_of_string s1),
          <- (string_of_list_ascii_of_string s2).
  f_equal. revert H.
  generalize (list_ascii_of_string s1) (list_ascii_of_string s2).
  induction l as [|a l IH]; intros [|b l'] H; simpl in H; try discriminate.
  - done.
  - inversion H as [[Hab Hl]]. f_equal; [|by apply IH].
    by rewrite <- (ascii_N_embedding a), <- (ascii_N_embedding b), Hab.
Qed.

Lemma str_of_int_inj i j : str_of_int i = str_of_int j -> i = j.
Proof.
  unfold str_of_int. intros H. apply str_inj in H.
  assert (Some (Z.to_int i) = Some (Z.to_int j)) as Hs
    by (by rewrite <- !NilEmpty.isi, H).
  inversion Hs as [Hd].
  by rewrite <- (DecimalZ.of_to i), <- (DecimalZ.of_to j), Hd.
Qed.

Lemma string_of_uint_no_dash d :
  DASH ∉ str (NilEmpty.string_of_uint d).
Proof.
  induction d; simpl;
    [ apply not_elem_of_nil
    | apply not_elem_of_cons; split; [by vm_compute | exact IHd] .. ].
Qed.

Lemma str_of_nat_no_dash (n : nat) : DASH ∉ str_of_int (Z.of_nat n).
Proof.
  unfold str_of_int. destruct (Z.of_nat n) as [|p|p] eqn:E; try lia;
    apply string_of_uint_no_dash.
Qed.

(** The text after the last dash determines the split. *)
Lemma app_dash_inj (a a' b b' : pystr) :
  DASH ∉ b -> DASH ∉ b' ->
  a ++ DASH :: b = a' ++ DASH :: b' -> a = a' /\ b = b'.
Proof.
  intros Hb Hb' H.
  assert (reverse b ++ DASH :: reverse a = reverse b' ++ DASH :: reverse a')
    as Hr.
  { apply (f_equal reverse) in H. rewrite !reverse_app, !reverse_cons in H.
    by rewrite <- !app_assoc in H. }
  assert (forall l1 l2 r1 r2 : pystr,
            DASH ∉ l1 -> DASH ∉ l2 ->
            l1 ++ DASH :: r1 = l2 ++ DASH :: r2 -> l1 = l2 /\ r1 = r2) as Hsplit.
  { induction l1 as [|x l1 IH]; intros [|y l2] r1 r2 H1 H2 He; simpl in He.
    - by inversion He.
    - inversion He; subst. exfalso. apply H2. by left.
    - inversion He; subst. exfalso. apply H1. by left.
    - inversion He; subst.
      apply not_elem_of_cons in H1 as [_ H1].
      apply not_elem_of_cons in H2 as [_ H2].
      destruct (IH l2 r1 r2 H1 H2) as [-> ->]; done. }
  apply Hsplit in Hr as [Hrb Hra].
  - split; by apply (inj reverse).
  - by rewrite elem_of_reverse.
  - by rewrite elem_of_reverse.
Qed.

Lemma internal_id_of_inj i j (p q : nat) :
  internal_id_of i p = internal_id_of j q -> i = j /\ p = q.
Proof.
  unfold internal_id_of. intros H.
  apply app_dash_inj in H as [Hi Hq]; try apply str_of_nat_no_dash.
  split; [by apply str_of_int_inj|].
  apply str_of_int_inj in Hq. lia.
Qed.

Lemma basket_index_assigned tokenizer indices tdb pairs bs b :
  Forall2 (basket_for tokenizer indices tdb) pairs bs -> b ∈ bs ->
  exists index_i (i_q : nat),
    index_i ∈ indices /\ id_internal b = internal_id_of index_i i_q.
Proof.
  intros HF Hb. apply list_elem_of_lookup in Hb as [k Hk].
  destruct (Forall2_lookup_r _ _ _ _ _ HF Hk) as ([[i_doc d] [i_q q]] & _ & Hp).
  destruct Hp as (index_i & tq & Hidx & Hid & _).
  exists index_i, i_q. split; [|done].
  apply list_elem_of_lookup. by exists i_doc.
Qed.

(** C9: two runs whose lists of assigned indices have no element in common
    produce no common internal id, whatever the batches and the tokenizers
    of the two runs; an internal id is the decimal form of the index
    assigned to the document, a dash, and the decimal form of the position
    of the question. *)
Theorem internal_ids_disjoint (pre_baskets1 pre_baskets2 : list PreBasket)
    (tokenizer1 tokenizer2 : Tokenizer) (indices1 indices2 : list Z)
    (bs1 bs2 : list SampleBasket) (b1 b2 : SampleBasket) :
  (forall i, i ∈ indices1 -> i ∉ indices2) ->
  result (tokenize_batch_question_answering pre_baskets1 tokenizer1 indices1)
    = Ok bs1 ->
  result (tokenize_batch_question_answering pre_baskets2 tokenizer2 indices2)
    = Ok bs2 ->
  b1 ∈ bs1 -> b2 ∈ bs2 ->
  id_internal b1 <> id_internal b2.
Proof.
  intros Hdisj H1 H2 Hb1 Hb2 Heq.
  apply tokenize_batch_question_answering_result in H1
    as (_ & _ & tdb1 & _ & HF1).
  apply tokenize_batch_question_answering_result in H2
    as (_ & _ & tdb2 & _ & HF2).
  destruct (basket_index_assigned _ _ _ _ _ _ HF1 Hb1) as (i1 & q1 & Hi1 & Hid1).
  destruct (basket_index_assigned _ _ _ _ _ _ HF2 Hb2) as (i2 & q2 & Hi2 & Hid2).
  rewrite Hid1, Hid2 in Heq. apply internal_id_of_inj in Heq as [-> _].
  by apply (Hdisj i2).
Qed.

Lemma internal_ids_disjoint_witness :
  match
    result (tokenize_batch_question_answering sample_batch_a
              sample_fast_tokenizer [10]),
    result (tokenize_batch_question_answering sample_batch_b
              sample_fast_tokenizer [11])
  with
  | Ok (b1 :: _), Ok (b2 :: _) => id_internal b1 <> id_internal b2
  | _, _ => False
  end.
Proof.
  assert (forall i : Z, i ∈ [10] -> i ∉ [11]) as Hdisj.
  { intros i Hi Hj. apply list_elem_of_singleton in Hi, Hj. lia. }
  destruct (result (tokenize_batch_question_answering sample_batch_a
                      sample_fast_tokenizer [10])) as [[|b1 bs1]|e1] eqn:E1;
    [vm_compute in E1; discriminate| |vm_compute in E1; discriminate].
  destruct (result (tokenize_batch_question_answering sample_batch_b
                      sample_fast_tokenizer [11])) as [[|b2 bs2]|e2] eqn:E2;
    [vm_compute in E2; discriminate| |vm_compute in E2; discriminate].
  apply (internal_ids_disjoint sample_batch_a sample_batch_b
           sample_fast_tokenizer sample_fast_tokenizer [10] [11]
           (b1 :: bs1) (b2 :: bs2) b1 b2 Hdisj E1 E2); by left.
Defined.

(** ** Runs of tokenize_batch_question_answering that return *)

Lemma for_each_returns {A S} (P : S -> Prop) (xs : list A)
    (body : S -> A -> M S) :
  (forall s x, x ∈ xs -> P s -> exists s1, result (body s x) = Ok s1 /\ P s1) ->
  forall acc, P acc -> exists s', result (for_each xs body acc) = Ok s' /\ P s'.
Proof.
  induction xs as [|x xs IH]; intros Hstep acc Hacc.
  - by exists acc.
  - destruct (Hstep acc x) as (s1 & H1 & HP1); [by left|done|].
    destruct (IH (fun s x' Hin => Hstep s x' (list_elem_of_further _ _ _ Hin))
                 s1 HP1) as (s' & H' & HP').
    exists s'. split; [|done]. by rewrite result_for_each_cons, H1.
Qed.

Lemma ediff1d_obj_all_words ws :
  Forall is_Some ws -> exists l, ediff1d_obj ws = Ok l.
Proof.
  induction ws as [|x ws IH]; intros H; [by exists []|].
  destruct ws as [|y ws]; [by exists []|].
  inversion H as [|? ? [x' ->] H']; subst.
  destruct (IH H') as [l Hl]. inversion H' as [|? ? [y' ->] _]; subst.
  exists ((y' - x') :: l).
  change (ediff1d_obj (Some x' :: Some y' :: ws)) with
    (match ediff1d_obj (Some y' :: ws) with
     | Ok ds => Ok ((y' - x') :: ds)
     | Raise _ => Raise TypeError
     end).
  by rewrite Hl.
Qed.

Lemma get_start_of_word_QA_returns ws :
  Forall is_Some ws -> exists l, result (_get_start_of_word_QA ws) = Ok l.
Proof.
  intros H. destruct (ediff1d_obj_all_words ws H) as [l Hl].
  exists (1 :: l). unfold _get_start_of_word_QA, lift.
  by rewrite result_bind; cbn [result snd]; rewrite Hl.
Qed.

Lemma start_of_words_batch_returns es :
  Forall all_words es ->
  forall acc, exists sb,
    result (for_each es
              (fun acc e => let* s := _get_start_of_word_QA (words e) in
                            ret (acc ++ [s])) acc) = Ok sb /\
    length sb = (length acc + length es)%nat.
Proof.
  induction 1 as [|e es He _ IH]; intros acc.
  - exists acc. split; [done|]. simpl. lia.
  - destruct (get_start_of_word_QA_returns _ He) as [l Hl].
    destruct (IH (acc ++ [l])) as (sb & Hsb & Hlen).
    exists sb. rewrite result_for_each_cons, result_bind, Hl.
    cbn [result ret snd]. split; [done|].
    rewrite Hlen, length_app. simpl. lia.
Qed.

Lemma enumerate_elem_of {A} (l : list A) (i : nat) x :
  (i, x) ∈ enumerate l -> (i < length l)%nat /\ x ∈ l.
Proof.
  unfold enumerate. intros H. split.
  - apply elem_of_zip_l in H. apply elem_of_seq in H. lia.
  - by apply elem_of_zip_r in H.
Qed.

Lemma index_returns {A} (l : list A) (i : nat) :
  (i < length l)%nat -> exists x, result (index l i) = Ok x.
Proof.
  intros H. apply lookup_lt_is_Some_2 in H as [x Hx].
  exists x. unfold index. by rewrite Hx.
Qed.

Lemma question_body_returns tokenizer indices tdb tb ob sb i_doc dt baskets
    i_q q :
  (i_doc < length indices)%nat -> (i_doc < length tb)%nat ->
  (i_doc < length ob)%nat -> (i_doc < length sb)%nat ->
  (i_doc < length (batch_encodings tdb))%nat ->
  (exists tokenized_q e,
     encode_plus tokenizer (question q) false = Ok tokenized_q /\
     head (encodings tokenized_q) = Some e /\ all_words e) ->
  exists s1, result (question_body tokenizer indices tdb tb ob sb i_doc dt
                       baskets (i_q, q)) = Ok s1.
Proof.
  intros H1 H2 H3 H4 H5 (tq & e & Htq & He & Hw).
  destruct (index_returns _ _ H1) as [x1 E1].
  destruct (index_returns _ _ H2) as [x2 E2].
  destruct (index_returns _ _ H3) as [x3 E3].
  destruct (index_returns _ _ H4) as [x4 E4].
  destruct (index_returns _ _ H5) as [x5 E5].
  destruct (get_start_of_word_QA_returns _ Hw) as [l El].
  assert (result (index (encodings tq) 0) = Ok e) as E0.
  { unfold index. destruct (encodings tq); [discriminate|].
    simpl in He. by inversion He. }
  unfold question_body. rewrite result_bind.
  unfold extern at 1. cbn [result snd]. rewrite Htq.
  rewrite result_bind, E0, result_bind, El, result_bind, E1, result_bind, E2,
    result_bind, E3, result_bind, E4, result_bind, E5, result_bind, E0.
  by eexists.
Qed.

(** With matching indices and a fast tokenizer that encodes the batch, the
    run returns. *)
Lemma tokenize_batch_question_answering_returns pre_baskets tokenizer indices
    tdb :
  length indices = length pre_baskets ->
  is_fast tokenizer = true ->
  encodes_batch tokenizer pre_baskets tdb ->
  exists bs,
    result (tokenize_batch_question_answering pre_baskets tokenizer indices)
      = Ok bs.
Proof.
  intros Hlen Hfast (Hbe & L1 & L2 & L3 & Hwords & Hqs).
  unfold tokenize_batch_question_answering.
  rewrite result_bind, bool_decide_eq_true_2 by done. cbn [assert result ret snd].
  rewrite Hfast, result_bind. cbn [result ret snd].
  rewrite result_bind. unfold extern at 1. cbn [result snd]. rewrite Hbe.
  rewrite result_bind.
  destruct (start_of_words_batch_returns _ Hwords []) as (sb & -> & Lsb).
  simpl in Lsb.
  assert (forall (s : list SampleBasket) x,
            x ∈ enumerate pre_baskets -> True ->
            exists s1,
              result (document_body tokenizer indices tdb (batch_input_ids tdb)
                        (map (map fst) (batch_offset_mapping tdb)) sb s x)
                = Ok s1 /\ True) as Hdoc.
  { intros s [i_doc d] Hin _. apply enumerate_elem_of in Hin as [Hi Hd].
    rewrite Forall_forall in Hqs. specialize (Hqs d Hd).
    rewrite Forall_forall in Hqs. unfold document_body.
    apply (for_each_returns (fun _ => True)); [|exact I].
    intros s0 [i_q q] Hq _. apply enumerate_elem_of in Hq as [_ Hq].
    edestruct (question_body_returns tokenizer indices tdb (batch_input_ids tdb)
                 (map (map fst) (batch_offset_mapping tdb)) sb i_doc (context d)
                 s0 i_q q) as [s1 Hs1]; [..|by exists s1]; try lia.
    - rewrite length_map. lia.
    - by apply Hqs. }
  destruct (for_each_returns _ _ _ Hdoc [] I) as (bs & Hbs & _).
  by exists bs.
Qed.

(** C3, amended: for a batch with a matching list of indices and a fast
    tokenizer that encodes it, [tokenize_batch_question_answering] returns
    exactly one basket per (document, question) pair, in the order of the
    documents and of their questions: as many baskets as the batch has
    questions, not as it has documents.  The basket of a pair holds the
    text and the tokenization of the document (token ids, offsets,
    start-of-word flags and token strings of its entry of the batch
    encoding), the text, the tokenization (the same four, of the encoding
    of the question) and the answers of that one question, the external id
    of the question, no samples, and the internal id made of the index
    assigned to the document and of the position of the question. *)
Theorem one_basket_per_question (pre_baskets : list PreBasket)
    (tokenizer : Tokenizer) (indices : list Z)
    (tokenized_docs_batch : BatchEncodings) :
  length indices = length pre_baskets ->
  is_fast tokenizer = true ->
  encodes_batch tokenizer pre_baskets tokenized_docs_batch ->
  exists bs,
    result (tokenize_batch_question_answering pre_baskets tokenizer indices)
      = Ok bs /\
    length bs = list_sum (map (fun d => length (qas d)) pre_baskets) /\
    Forall2 (basket_for tokenizer indices tokenized_docs_batch)
      (qa_pairs pre_baskets) bs.
Proof.
  intros Hlen Hfast Henc.
  destruct (tokenize_batch_question_answering_returns _ _ _ _ Hlen Hfast Henc)
    as [bs Hbs].
  exists bs. split; [done|].
  apply tokenize_batch_question_answering_result in Hbs
    as (_ & _ & tdb & Htdb & HF).
  destruct Henc as [Hbe _]. rewrite Hbe in Htdb. inversion Htdb; subst tdb.
  split; [|done].
  apply Forall2_length in HF. by rewrite <- HF, qa_pairs_length.
Qed.

Lemma one_basket_per_question_witness :
  exists bs,
    result (tokenize_batch_question_answering
              [sample_doc_two_questions; sample_doc_one_question]
              sample_fast_tokenizer [10; 11]) = Ok bs /\
    length bs = 3%nat /\
    Forall2 (basket_for sample_fast_tokenizer [10; 11]
               (sample_batch_encode
                  (map context [sample_doc_two_questions;
                                sample_doc_one_question])))
      (qa_pairs [sample_doc_two_questions; sample_doc_one_question]) bs.
Proof.
  destruct (one_basket_per_question
              [sample_doc_two_questions; sample_doc_one_question]
              sample_fast_tokenizer [10; 11]
              (sample_batch_encode
                 (map context [sample_doc_two_questions; sample_doc_one_question])))
    as (bs & Hbs & Hlen & HF).
  - reflexivity.
  - reflexivity.
  - split; [reflexivity|]. split; [reflexivity|]. split; [reflexivity|].
    split; [reflexivity|]. split.
    + vm_compute. repeat constructor; by eexists.
    + repeat constructor; eexists _, _;
        (split; [reflexivity|]); (split; [reflexivity|]);
        vm_compute; repeat constructor; by eexists.
  - by exists bs.
Defined.

(** * Further properties of the module *)

(** ** The resolver *)

Lemma trace_bind {A B} (m : M A) (k : A -> M B) :
  trace (bind m k) =
  trace m ++ match result m with
             | Ok a => trace (k a)
             | Raise _ => []
             end.
Proof.
  destruct m as [t [a|e]]; simpl; [by destruct (k a)|by rewrite app_nil_r].
Qed.

Lemma result_try_except_all {A} (body : M A) (handler : exn -> M A) :
  result (try_except body (fun _ => true) handler) =
  match result body with
  | Ok a => Ok a
  | Raise e => result (handler e)
  end.
Proof. destruct body as [t [a|e]]; simpl; [done|by destruct (handler e)]. Qed.

Lemma get_tokenizer_result G env path revision tokenizer_classname use_fast
    auth_token kwargs :
  result (get_tokenizer G env path revision tokenizer_classname use_fast
            auth_token kwargs) =
  wrap_ModelingError
    (match result (if is_None tokenizer_classname
                   then _infer_tokenizer_classname G env path auth_token
                   else ret tokenizer_classname) with
     | Raise e => Raise e
     | Ok (VStr cls) =>
         match transformers_getattr env (cls ++ class_suffix use_fast) with
         | None => Raise AttributeError
         | Some tokenizer_class =>
             if bool_decide (NoDup
                  ("pretrained_model_name_or_path"%string ::
                   "use_auth_token"%string :: "revision"%string ::
                   map fst (default [] (TOKENIZERS_PARAMS env !! cls))
                   ++ map fst kwargs))
             then tokenizer_class path (or_False auth_token) revision
                    (default [] (TOKENIZERS_PARAMS env !! cls) ++ kwargs)
             else Raise TypeError
         end
     | Ok _ => Raise TypeError
     end).
Proof.
  unfold get_tokenizer. rewrite result_try_except_all, result_bind.
  destruct (result (if is_None tokenizer_classname then _ else _)) as [v|e];
    [|done].
  rewrite result_bind. cbn [extern result snd]. rewrite result_bind.
  destruct v as [| | |cls]; try done.
  cbn [add_suffix result ret snd params_get]. fold (class_suffix use_fast).
  destruct (transformers_getattr env (cls ++ class_suffix use_fast))
    as [tokenizer_class|]; [|done].
  rewrite result_bind. unfold call_keywords.
  case_bool_decide; cbn [result ret raise snd extern]; [|done].
  by destruct (tokenizer_class _ _ _ _).
Qed.

(** X1: a model saved by Haystack, whose configuration is found only at the
    secondary location and whose model type is in the table, is loaded
    through the class named by the table entry plus the suffix chosen by
    [use_fast], with the default parameters of that entry followed by the
    caller's keyword arguments; what that class returns is returned, what
    it raises is wrapped. *)
Theorem get_tokenizer_haystack_model env path revision use_fast auth_token
    kwargs config cls tokenizer_class :
  AutoConfig env path (or_False auth_token) = Raise OSError ->
  AutoConfig env (secondary_path path) (or_False auth_token) = Ok config ->
  TOKENIZERS_MAPPING env !! model_type config = Some cls ->
  cls <> [] ->
  transformers_getattr env (cls ++ class_suffix use_fast) = Some tokenizer_class ->
  NoDup ("pretrained_model_name_or_path"%string :: "use_auth_token"%string ::
         "revision"%string ::
         map fst (default [] (TOKENIZERS_PARAMS env !! cls)) ++ map fst kwargs) ->
  result (get_tokenizer module_globals env path revision VNone use_fast
            auth_token kwargs) =
    wrap_ModelingError
      (tokenizer_class path (or_False auth_token) revision
         (default [] (TOKENIZERS_PARAMS env !! cls) ++ kwargs)).
Proof.
  intros H1 H2 H3 Hne Hc Hk. rewrite get_tokenizer_result. cbn [is_None].
  rewrite (infer_secondary_mapped _ _ _ _ _ _ H1 H2 H3 Hne). cbn [result snd].
  by rewrite Hc, bool_decide_eq_true_2.
Qed.

Lemma get_tokenizer_haystack_model_witness :
  exists t,
    result (get_tokenizer module_globals
              (haystack_env (str "saved_models/bert") sample_config)
              (str "saved_models/bert") VNone VNone false VNone
              [("never_split"%string, VNone)]) = Ok t /\
    is_fast t = false.
Proof.
  exists whitespace_tokenizer. split; [|reflexivity].
  refine (get_tokenizer_haystack_model
            (haystack_env (str "saved_models/bert") sample_config)
            (str "saved_models/bert") VNone false VNone
            [("never_split"%string, VNone)] sample_config (str "Bert")
            (fun _ _ _ _ => Ok whitespace_tokenizer) _ _ _ _ _ _);
    try (by vm_compute).
  eapply bool_decide_unpack. by vm_compute.
Defined.

Lemma infer_secondary_loaded G env path auth_token config :
  AutoConfig env path (or_False auth_token) = Raise OSError ->
  AutoConfig env (secondary_path path) (or_False auth_token) = Ok config ->
  TOKENIZERS_MAPPING env !! model_type config = None ->
  result (_infer_tokenizer_classname G env path auth_token) =
  if bool_decide (model_type config = str "dpr") then
    result
      (let* a := architectures_0 config in
       if bool_decide (a = str "DPRQuestionEncoder") then
         ret (VStr (str "DPRQuestionEncoderTokenizer"))
       else if bool_decide (a = str "DPRContextEncoder") then
         ret (VStr (str "DPRContextEncoderTokenizer"))
       else if bool_decide (a = str "DPRReader") then
         raise (NotImplementedError "DPRReader models are currently not supported.")
       else ret VNone)
  else
    match candidates (TOKENIZERS_STRING_HINTS env) path with
    | [] => Raise ValueError
    | c :: _ =>
        if bool_decide (c = str "Roberta") && contains (lower env path) (str "mlm")
        then Raise (NotImplementedError
               "MLM part of codebert is currently not supported in Haystack")
        else Ok (VStr c)
    end.
Proof.
  intros H1 H2 H3. unfold _infer_tokenizer_classname.
  rewrite H1. simpl. rewrite H2. simpl. unfold dict_get. rewrite H3. simpl.
  case_bool_decide as Hd; simpl.
  - unfold architectures_0.
    destruct (architectures config) as [[|a rest]|]; simpl; try done.
    repeat (case_bool_decide; simpl; try done).
  - destruct (candidates _ _) as [|c cs]; simpl; [done|].
    by destruct (bool_decide (c = str "Roberta") && _).
Qed.

(** X2: for a DPR model saved by Haystack (model type ["dpr"], which the
    table does not map), the class is chosen by the first entry of
    [architectures]: the question and the context encoder get their own
    tokenizer class, a reader is refused with [NotImplementedError], and
    for any other architecture the function returns [None] without an
    error. *)
Theorem infer_dpr env path auth_token config a rest :
  AutoConfig env path (or_False auth_token) = Raise OSError ->
  AutoConfig env (secondary_path path) (or_False auth_token) = Ok config ->
  model_type config = str "dpr" ->
  TOKENIZERS_MAPPING env !! str "dpr" = None ->
  architectures config = Some (a :: rest) ->
  result (_infer_tokenizer_classname module_globals env path auth_token) =
    if bool_decide (a = str "DPRQuestionEncoder") then
      Ok (VStr (str "DPRQuestionEncoderTokenizer"))
    else if bool_decide (a = str "DPRContextEncoder") then
      Ok (VStr (str "DPRContextEncoderTokenizer"))
    else if bool_decide (a = str "DPRReader") then
      Raise (NotImplementedError "DPRReader models are currently not supported.")
    else Ok VNone.
Proof.
  intros H1 H2 Hd Hm Ha.
  rewrite (infer_secondary_loaded _ _ _ _ _ H1 H2) by (by rewrite Hd).
  rewrite bool_decide_eq_true_2 by done.
  unfold architectures_0. rewrite Ha. simpl.
  by repeat case_bool_decide.
Qed.

Lemma infer_dpr_witness :
  result (_infer_tokenizer_classname module_globals
            (haystack_env (str "saved_models/dpr") (dpr_config "DPRContextEncoder"))
            (str "saved_models/dpr") VNone)
    = Ok (VStr (str "DPRContextEncoderTokenizer")) /\
  result (_infer_tokenizer_classname module_globals
            (haystack_env (str "saved_models/dpr") (dpr_config "DPRReader"))
            (str "saved_models/dpr") VNone)
    = Raise (NotImplementedError "DPRReader models are currently not supported.") /\
  result (_infer_tokenizer_classname module_globals
            (haystack_env (str "saved_models/dpr") (dpr_config "DPRForSomething"))
            (str "saved_models/dpr") VNone)
    = Ok VNone.
Proof.
  split; [|split].
  - exact (infer_dpr (haystack_env (str "saved_models/dpr")
                        (dpr_config "DPRContextEncoder"))
             (str "saved_models/dpr") VNone (dpr_config "DPRContextEncoder")
             (str "DPRContextEncoder") [] eq_refl eq_refl eq_refl eq_refl eq_refl).
  - exact (infer_dpr (haystack_env (str "saved_models/dpr")
                        (dpr_config "DPRReader"))
             (str "saved_models/dpr") VNone (dpr_config "DPRReader")
             (str "DPRReader") [] eq_refl eq_refl eq_refl eq_refl eq_refl).
  - exact (infer_dpr (haystack_env (str "saved_models/dpr")
                        (dpr_config "DPRForSomething"))
             (str "saved_models/dpr") VNone (dpr_config "DPRForSomething")
             (str "DPRForSomething") [] eq_refl eq_refl eq_refl eq_refl eq_refl).
Defined.

Lemma candidates_first_match hints name pre k v post :
  hints = pre ++ (k, v) :: post ->
  Forall (fun kv => contains name kv.1 = false) pre ->
  contains name k = true ->
  exists cs, candidates hints name = v :: cs.
Proof.
  intros -> Hpre Hk. unfold candidates.
  rewrite filter_app, filter_cons_True by done.
  assert (filter (fun kv : pystr * pystr => contains name kv.1 = true) pre = [])
    as ->.
  { induction Hpre as [|kv pre Hkv _ IH]; [done|].
    rewrite filter_cons_False; [done|]. by rewrite Hkv. }
  by eexists.
Qed.

Lemma candidates_no_match hints name :
  Forall (fun kv => contains name kv.1 = false) hints ->
  candidates hints name = [].
Proof.
  unfold candidates. induction 1 as [|kv hints Hkv _ IH]; [done|].
  rewrite filter_cons_False; [done|]. by rewrite Hkv.
Qed.

(** X3: for a saved model whose model type is neither in the table nor
    ["dpr"], the class is read off the model name: the hint that counts is
    the first one, in the order of the hint table, whose key occurs in the
    name, later matches being ignored; that class is returned, except that
    ["Roberta"] is refused with [NotImplementedError] when the lower-cased
    name contains ["mlm"]. *)
Theorem infer_first_hint_wins env path auth_token config pre k v post :
  AutoConfig env path (or_False auth_token) = Raise OSError ->
  AutoConfig env (secondary_path path) (or_False auth_token) = Ok config ->
  TOKENIZERS_MAPPING env !! model_type config = None ->
  model_type config <> str "dpr" ->
  TOKENIZERS_STRING_HINTS env = pre ++ (k, v) :: post ->
  Forall (fun kv => contains path kv.1 = false) pre ->
  contains path k = true ->
  result (_infer_tokenizer_classname module_globals env path auth_token) =
    if bool_decide (v = str "Roberta") && contains (lower env path) (str "mlm")
    then Raise (NotImplementedError
           "MLM part of codebert is currently not supported in Haystack")
    else Ok (VStr v).
Proof.
  intros H1 H2 H3 Hd Hh Hpre Hk.
  rewrite (infer_secondary_loaded _ _ _ _ _ H1 H2 H3).
  rewrite bool_decide_eq_false_2 by done.
  by destruct (candidates_first_match _ _ _ _ _ _ Hh Hpre Hk) as [cs ->].
Qed.

Lemma infer_first_hint_wins_witness :
  candidates (TOKENIZERS_STRING_HINTS sample_env) (str "saved/roberta-large")
    = [str "Roberta"; str "Bert"] /\
  result (_infer_tokenizer_classname module_globals
            (haystack_env (str "saved/roberta-large") unknown_config)
            (str "saved/roberta-large") VNone) = Ok (VStr (str "Roberta")) /\
  result (_infer_tokenizer_classname module_globals
            (haystack_env (str "saved/codebert-base") unknown_config)
            (str "saved/codebert-base") VNone)
    = Ok (VStr (str "Bert")).
Proof.
  split; [by vm_compute|]. split.
  - refine (infer_first_hint_wins
              (haystack_env (str "saved/roberta-large") unknown_config)
              (str "saved/roberta-large") VNone unknown_config
              [] (str "roberta") (str "Roberta") [(str "bert", str "Bert")]
              _ _ _ _ _ _ _); try (by vm_compute); repeat constructor.
  - refine (infer_first_hint_wins
              (haystack_env (str "saved/codebert-base") unknown_config)
              (str "saved/codebert-base") VNone unknown_config
              [(str "roberta", str "Roberta")] (str "bert") (str "Bert") []
              _ _ _ _ _ _ _); try (by vm_compute); repeat constructor.
Defined.

(** X4: with a model type that is neither mapped nor ["dpr"] and a model
    name in which no hint key occurs, the resolver raises [ValueError], and
    [get_tokenizer] reports it as [ModelingError]. *)
Theorem infer_no_hint_ValueError env path revision use_fast auth_token kwargs
    config :
  AutoConfig env path (or_False auth_token) = Raise OSError ->
  AutoConfig env (secondary_path path) (or_False auth_token) = Ok config ->
  TOKENIZERS_MAPPING env !! model_type config = None ->
  model_type config <> str "dpr" ->
  Forall (fun kv => contains path kv.1 = false) (TOKENIZERS_STRING_HINTS env) ->
  result (_infer_tokenizer_classname module_globals env path auth_token)
    = Raise ValueError /\
  result (get_tokenizer module_globals env path revision VNone use_fast
            auth_token kwargs)
    = Raise (ModelingError "Unable to load tokenizer." ValueError).
Proof.
  intros H1 H2 H3 Hd Hh.
  assert (result (_infer_tokenizer_classname module_globals env path auth_token)
          = Raise ValueError) as Hr.
  { rewrite (infer_secondary_loaded _ _ _ _ _ H1 H2 H3).
    rewrite bool_decide_eq_false_2 by done.
    by rewrite candidates_no_match. }
  split; [exact Hr|]. by apply get_tokenizer_infer_raises.
Qed.

Lemma infer_no_hint_ValueError_witness :
  result (get_tokenizer module_globals
            (haystack_env (str "saved/my-model") unknown_config)
            (str "saved/my-model") VNone VNone true VNone [])
    = Raise (ModelingError "Unable to load tokenizer." ValueError).
Proof.
  refine (proj2 (infer_no_hint_ValueError
                   (haystack_env (str "saved/my-model") unknown_config)
                   (str "saved/my-model") VNone true VNone [] unknown_config
                   _ _ _ _ _)); try (by vm_compute); repeat constructor.
Defined.

(** X6: when the primary load of the configuration fails with an exception
    that is neither [OSError] nor of a class derived from it, the secondary
    location is not tried and no fall-back runs: the resolver makes that
    one call and lets the exception through, and [get_tokenizer] wraps
    it. *)
Theorem infer_primary_error_propagates env path revision use_fast auth_token
    kwargs e :
  AutoConfig env path (or_False auth_token) = Raise e ->
  is_OSError e = false ->
  _infer_tokenizer_classname module_globals env path auth_token =
    ([AutoConfig_from_pretrained path (or_False auth_token)], Raise e) /\
  result (get_tokenizer module_globals env path revision VNone use_fast
            auth_token kwargs) =
    Raise (ModelingError "Unable to load tokenizer." e).
Proof.
  intros H1 He.
  assert (_infer_tokenizer_classname module_globals env path auth_token =
          ([AutoConfig_from_pretrained path (or_False auth_token)], Raise e))
    as Hr.
  { generalize module_globals. intros G.
    unfold _infer_tokenizer_classname.
    rewrite H1. cbn [bind extern]. unfold try_except at 1. by rewrite He. }
  split; [exact Hr|]. apply get_tokenizer_infer_raises. by rewrite Hr.
Qed.

Lemma infer_primary_error_propagates_witness :
  is_OSError (LibraryError "FileNotFoundError") = true /\
  is_OSError (OSErrorSubclass "requests.exceptions.ConnectionError") = true /\
  _infer_tokenizer_classname module_globals unrecognized_env (str "roberta-base")
    VNone =
    ([AutoConfig_from_pretrained (str "roberta-base") (VBool false)],
     Raise ValueError).
Proof.
  split; [reflexivity|]. split; [reflexivity|].
  exact (proj1 (infer_primary_error_propagates unrecognized_env
                  (str "roberta-base") VNone true VNone [] ValueError
                  eq_refl eq_refl)).
Defined.

(** X7: with an explicit class name [get_tokenizer] never consults a
    configuration: its only calls are the debug log and the constructor of
    the class named by the argument plus the suffix chosen by [use_fast],
    whose outcome it returns (wrapped when it is an exception). *)
Theorem get_tokenizer_explicit_class env path revision cls use_fast auth_token
    kwargs tokenizer_class :
  transformers_getattr env (cls ++ class_suffix use_fast) = Some tokenizer_class ->
  NoDup ("pretrained_model_name_or_path"%string :: "use_auth_token"%string ::
         "revision"%string ::
         map fst (default [] (TOKENIZERS_PARAMS env !! cls)) ++ map fst kwargs) ->
  let m := get_tokenizer module_globals env path revision (VStr cls) use_fast
             auth_token kwargs in
  Forall (fun c => is_config_call c = false) (trace m) /\
  last (trace m) =
    Some (class_from_pretrained (cls ++ class_suffix use_fast) path
            (or_False auth_token) revision
            (default [] (TOKENIZERS_PARAMS env !! cls) ++ kwargs)) /\
  result m =
    wrap_ModelingError
      (tokenizer_class path (or_False auth_token) revision
         (default [] (TOKENIZERS_PARAMS env !! cls) ++ kwargs)).
Proof.
  intros Hc Hk m. subst m. generalize module_globals. intros G.
  split; [|split].
  - unfold get_tokenizer, call_keywords. simpl.
    fold (class_suffix use_fast). rewrite Hc.
    rewrite bool_decide_eq_true_2 by done. simpl.
    destruct (tokenizer_class _ _ _ _); simpl; by repeat constructor.
  - unfold get_tokenizer, call_keywords. simpl.
    fold (class_suffix use_fast). rewrite Hc.
    rewrite bool_decide_eq_true_2 by done. simpl.
    by destruct (tokenizer_class _ _ _ _).
  - rewrite get_tokenizer_result. simpl.
    by rewrite Hc, bool_decide_eq_true_2.
Qed.

Lemma get_tokenizer_explicit_class_witness :
  trace (get_tokenizer module_globals sample_env (str "no-such-model") VNone
           (VStr (str "Bert")) true VNone []) =
    [logger_debug (str "Loading tokenizer of type 'Bert'");
     class_from_pretrained (str "BertTokenizerFast") (str "no-such-model")
       (VBool false) VNone []] /\
  exists t,
    result (get_tokenizer module_globals sample_env (str "no-such-model") VNone
              (VStr (str "Bert")) true VNone []) = Ok t /\ is_fast t = true.
Proof.
  split; [by vm_compute|]. exists sample_fast_tokenizer. split; [|reflexivity].
  refine (proj2 (proj2 (get_tokenizer_explicit_class sample_env
                          (str "no-such-model") VNone (str "Bert") true VNone []
                          (fun _ _ _ _ => Ok sample_fast_tokenizer) _ _)));
    [by vm_compute|]. eapply bool_decide_unpack. by vm_compute.
Defined.

(** X8: when the transformers package has no class of the name built from
    the class name and the suffix (for instance no fast variant), nothing
    is constructed: [get_tokenizer] raises [ModelingError] caused by
    [AttributeError]. *)
Theorem get_tokenizer_unknown_class env path revision cls use_fast auth_token
    kwargs :
  transformers_getattr env (cls ++ class_suffix use_fast) = None ->
  let m := get_tokenizer module_globals env path revision (VStr cls) use_fast
             auth_token kwargs in
  result m = Raise (ModelingError "Unable to load tokenizer." AttributeError) /\
  Forall (fun c => is_class_call c = false) (trace m).
Proof.
  intros Hc m. subst m. generalize module_globals. intros G. split.
  - rewrite get_tokenizer_result. simpl. by rewrite Hc.
  - unfold get_tokenizer. simpl. fold (class_suffix use_fast). rewrite Hc.
    simpl. by repeat constructor.
Qed.

Lemma get_tokenizer_unknown_class_witness :
  result (get_tokenizer module_globals sample_env (str "roberta-base") VNone
            (VStr (str "Roberta")) true VNone []) =
    Raise (ModelingError "Unable to load tokenizer." AttributeError).
Proof.
  exact (proj1 (get_tokenizer_unknown_class sample_env (str "roberta-base")
                  VNone (str "Roberta") true VNone [] eq_refl)).
Defined.

(** X9: a keyword argument of the caller that the default parameters of
    the class already set is given twice to the constructor: the call
    fails with [TypeError] before the class is entered, and
    [get_tokenizer] raises [ModelingError]; the caller's value does not
    override the default. *)
Theorem get_tokenizer_duplicate_keyword env path revision cls use_fast
    auth_token kwargs tokenizer_class k v v' :
  transformers_getattr env (cls ++ class_suffix use_fast) = Some tokenizer_class ->
  (k, v) ∈ default [] (TOKENIZERS_PARAMS env !! cls) ->
  (k, v') ∈ kwargs ->
  let m := get_tokenizer module_globals env path revision (VStr cls) use_fast
             auth_token kwargs in
  result m = Raise (ModelingError "Unable to load tokenizer." TypeError) /\
  Forall (fun c => is_class_call c = false) (trace m).
Proof.
  intros Hc Hp Hkw m. subst m.
  assert (~ NoDup ("pretrained_model_name_or_path"%string ::
                   "use_auth_token"%string :: "revision"%string ::
                   map fst (default [] (TOKENIZERS_PARAMS env !! cls))
                   ++ map fst kwargs)) as Hdup.
  { intros Hn. do 3 apply NoDup_cons in Hn as [_ Hn].
    apply NoDup_app in Hn as (_ & Hn & _). apply (Hn k).
    - change k with (fst (k, v)). apply list_elem_of_In, in_map.
      by apply list_elem_of_In.
    - change k with (fst (k, v')). apply list_elem_of_In, in_map.
      by apply list_elem_of_In. }
  generalize module_globals. intros G. split.
  - rewrite get_tokenizer_result. simpl.
    by rewrite Hc, bool_decide_eq_false_2.
  - unfold get_tokenizer, call_keywords. simpl.
    fold (class_suffix use_fast). rewrite Hc.
    rewrite bool_decide_eq_false_2 by done. simpl. by repeat constructor.
Qed.

Lemma get_tokenizer_duplicate_keyword_witness :
  result (get_tokenizer module_globals
            (haystack_env (str "saved_models/bert") sample_config)
            (str "saved_models/bert") VNone (VStr (str "Bert")) true VNone
            [("do_lower_case"%string, VBool true)]) =
    Raise (ModelingError "Unable to load tokenizer." TypeError).
Proof.
  refine (proj1 (get_tokenizer_duplicate_keyword
                   (haystack_env (str "saved_models/bert") sample_config)
                   (str "saved_models/bert") VNone (str "Bert") true VNone
                   [("do_lower_case"%string, VBool true)]
                   (fun _ _ _ _ => Ok sample_fast_tokenizer)
                   "do_lower_case"%string (VBool false) (VBool true) _ _ _)).
  - by vm_compute.
  - vm_compute. by left.
  - by left.
Defined.

(** ** truncate_sequences, any strategy *)

(** X10: for every strategy, when [max_seq_len] is not 0 and is exceeded,
    the number of tokens the primitive is asked to remove is the excess of
    the two lengths plus the special tokens reserved (none when
    [with_special_tokens] is off) over [max_seq_len]; strategy and stride
    are passed on unchanged, and the outcome is the primitive's. *)
Theorem truncate_sequences_delegates {A} (seq_a : list A)
    (seq_b : option (list A)) (tokenizer : Tokenizer) (max_seq_len : Z)
    (truncation_strategy : pystr) (with_special_tokens : bool) (stride : Z) :
  let reserved :=
    if with_special_tokens
    then num_special_tokens_to_add tokenizer (bool_decide (is_Some seq_b))
    else 0 in
  let n := len seq_a + from_option len 0 seq_b + reserved - max_seq_len in
  max_seq_len <> 0 -> 0 < n ->
  let m := truncate_sequences seq_a seq_b tokenizer max_seq_len
             truncation_strategy with_special_tokens stride in
  result m = lib_truncate_sequences tokenizer A seq_a seq_b n
               truncation_strategy stride /\
  filter (fun c => is_truncate_call c = true) (trace m) =
    [tokenizer_truncate_sequences n truncation_strategy stride].
Proof.
  intros reserved n H0 Hn m. subst m.
  rewrite truncate_sequences_total_len. cbv zeta.
  assert (total_len seq_a seq_b tokenizer with_special_tokens
          = n + max_seq_len) as ->.
  { unfold total_len. subst n reserved. destruct seq_b; simpl; lia. }
  replace (n + max_seq_len - max_seq_len) with n by lia.
  assert (negb (max_seq_len =? 0) && (max_seq_len <? n + max_seq_len) = true)
    as ->.
  { apply andb_true_iff. split; [apply negb_true_iff; lia|lia]. }
  split; [done|]. by destruct with_special_tokens.
Qed.

Lemma truncate_sequences_delegates_witness :
  truncate_sequences [1; 2; 3; 4; 5] (Some [6; 7]) whitespace_tokenizer 8
    (str "longest_first") true 0 =
  ([tokenizer_num_special_tokens_to_add true;
    tokenizer_truncate_sequences 2 (str "longest_first") 0],
   Ok ([1; 2; 3], Some [6; 7], [4; 5])).
Proof.
  pose proof (truncate_sequences_delegates [1; 2; 3; 4; 5] (Some [6; 7])
                whitespace_tokenizer 8 (str "longest_first") true 0) as H.
  cbv zeta in H. destruct H as [_ _]; [done|done|]. by vm_compute.
Defined.

(** ** Words and their offsets *)

Lemma split_space_cons_ex text : exists w ws, split_space text = w :: ws.
Proof.
  induction text as [|c text (w & ws & IH)]; [by exists [], []|].
  simpl. destruct (c =? SPACE)%N; [by eexists _, _|].
  rewrite IH. by eexists _, _.
Qed.

(** Splitting on single spaces loses nothing: joining the words with
    single spaces gives the text back, and no word holds a space. *)
Lemma split_space_join (text : pystr) :
  join_space (split_space text) = text /\
  Forall (fun w => SPACE ∉ w) (split_space text).
Proof.
  induction text as [|c text [IHj IHf]].
  - split; [done|]. repeat constructor. apply not_elem_of_nil.
  - simpl. destruct (c =? SPACE)%N eqn:E.
    + apply N.eqb_eq in E. subst c.
      destruct (split_space_cons_ex text) as (w & ws & Hs).
      rewrite Hs in *. split.
      * change (join_space ([] :: w :: ws)) with (SPACE :: join_space (w :: ws)).
        by rewrite IHj.
      * constructor; [apply not_elem_of_nil|done].
    + apply N.eqb_neq in E.
      destruct (split_space_cons_ex text) as (w & ws & Hs). rewrite Hs in *.
      inversion IHf as [|? ? Hw Hws]; subst. split.
      * by destruct ws.
      * constructor; [|done]. apply not_elem_of_cons. by split.
Qed.

Lemma word_offsets_slice ws : forall k (i : nat) w off,
  ws !! i = Some w -> word_offsets_from k ws !! i = Some off ->
  k <= off /\ slice (join_space ws) (off - k) (length w) = w.
Proof.
  induction ws as [|w0 ws IH]; intros k i w off Hw Hoff; [done|].
  destruct i as [|i]; simpl in Hw, Hoff.
  - inversion Hw; inversion Hoff; subst. split; [lia|].
    unfold slice. rewrite Z.sub_diag. simpl.
    destruct ws; [by apply take_ge|by apply take_app_length].
  - destruct (IH _ _ _ _ Hw Hoff) as [Hle Hs]. split; [unfold len in *; lia|].
    destruct ws as [|w1 ws]; [done|].
    change (join_space (w0 :: w1 :: ws))
      with (w0 ++ SPACE :: join_space (w1 :: ws)).
    unfold slice in *. unfold len in *.
    rewrite (cons_middle SPACE), app_assoc.
    set (pre := w0 ++ [SPACE]).
    replace (Z.to_nat (off - k))
      with (length pre
            + Z.to_nat (off - (k + (Z.of_nat (length w0) + 1))))%nat
      by (subst pre; rewrite length_app; simpl; lia).
    rewrite drop_app_add. exact Hs.
Qed.

Lemma word_offsets_locate (text : pystr) (i : nat) (w : pystr) (off : Z) :
  split_space text !! i = Some w ->
  word_offsets_from 0 (split_space text) !! i = Some off ->
  0 <= off /\ slice text off (length w) = w.
Proof.
  intros Hw Hoff.
  destruct (word_offsets_slice _ _ _ _ _ Hw Hoff) as [Hle Hs].
  split; [done|]. rewrite Z.sub_0_r in Hs.
  by rewrite (proj1 (split_space_join text)) in Hs.
Qed.

(** X11: the offset recorded for a word is where the word stands in the
    normalised text: the slice of the text that starts at the offset and
    has the length of the word is the word itself. *)
Theorem word_offsets_locate_words (text : pystr) (i : nat) (w : pystr) (off : Z) :
  let text' := sub_whitespace text in
  split_space text' !! i = Some w ->
  word_offsets_from 0 (split_space text') !! i = Some off ->
  0 <= off /\ slice text' off (length w) = w.
Proof.
  intros text' Hw Hoff. by apply (word_offsets_locate text' i).
Qed.

Lemma word_offsets_locate_words_witness :
  slice (sub_whitespace (str "Berlin" ++ [9%N; 10%N] ++ str "is")) 8 2 = str "is".
Proof.
  exact (proj2 (word_offsets_locate_words (str "Berlin" ++ [9%N; 10%N] ++ str "is")
                  2 (str "is") 8 eq_refl eq_refl)).
Defined.

(** ** What the slow path hands to the tokenizer *)

Lemma sub_whitespace_space_only text :
  Forall (fun c => is_space c = true -> c = SPACE) (sub_whitespace text).
Proof.
  induction text as [|c text IH]; [constructor|].
  simpl. constructor; [|exact IH]. destruct (is_space c) eqn:E; [done|].
  by rewrite E.
Qed.

Lemma split_space_elem_of text w c :
  w ∈ split_space text -> c ∈ w -> c ∈ text.
Proof.
  revert w. induction text as [|a text IH]; intros w Hw Hc.
  - simpl in Hw. apply list_elem_of_singleton in Hw. by subst.
  - simpl in Hw. destruct (a =? SPACE)%N.
    + apply elem_of_cons in Hw as [-> | Hw]; [by apply elem_of_nil in Hc|].
      right. by eapply IH.
    + destruct (split_space text) as [|w' ws] eqn:Hs.
      * apply list_elem_of_singleton in Hw. subst. apply list_elem_of_singleton in Hc.
        subst. by left.
      * apply elem_of_cons in Hw as [-> | Hw].
        -- apply elem_of_cons in Hc as [-> | Hc]; [by left|].
           right. apply (IH w'); [by left|done].
        -- right. apply (IH w); [by right|done].
Qed.

Lemma words_without_whitespace text w :
  w ∈ split_space (sub_whitespace text) ->
  Forall (fun c => is_space c = false) w.
Proof.
  intros Hw. apply Forall_forall. intros c Hc.
  destruct (is_space c) eqn:E; [|done]. exfalso.
  pose proof (split_space_elem_of _ _ _ Hw Hc) as Hin.
  pose proof (sub_whitespace_space_only text) as Hall.
  rewrite Forall_forall in Hall. specialize (Hall c Hin E). subst c.
  pose proof (proj2 (split_space_join (sub_whitespace text))) as Hns.
  rewrite Forall_forall in Hns. by apply (Hns w Hw).
Qed.

Lemma trace_for_each_Forall {A S} (P : call -> Prop) (xs : list A)
    (body : S -> A -> M S) :
  (forall s x, x ∈ xs -> Forall P (trace (body s x))) ->
  forall acc, Forall P (trace (for_each xs body acc)).
Proof.
  induction xs as [|x xs IH]; intros Hstep acc; [constructor|].
  simpl. rewrite trace_bind. apply Forall_app. split; [apply Hstep; by left|].
  destruct (result (body acc x)); [|constructor].
  apply IH. intros s x' Hin. apply Hstep. by right.
Qed.

Lemma trace_token_loop tokenizer toks st :
  trace (for_each toks (token_body tokenizer) st) = [].
Proof.
  revert st. induction toks as [|tok toks IH]; intros st; [done|].
  simpl. rewrite trace_bind.
  assert (trace (token_body tokenizer st tok) = []) as ->.
  { destruct st as [[[w_off offs] sow] first]. unfold token_body, getitem.
    destruct (special_tokens_map tokenizer !! str "unk_token"); simpl; [|done].
    by destruct first. }
  destruct (result _); [apply IH|done].
Qed.

Lemma trace_word_body G tokenizer s w w_off :
  Forall (fun c => forall w' b, c = tokenizer_tokenize w' b -> w' = w /\ w <> [])
    (trace (word_body G tokenizer s (w, w_off))).
Proof.
  unfold word_body. rewrite trace_bind. apply Forall_app. split.
  { destruct (_ =? 0); repeat constructor; discriminate. }
  rewrite result_log_idx, len_eqb_0. case_bool_decide as Hw; [constructor|].
  rewrite trace_bind. apply Forall_app. split.
  - cbn [st_tokens]. destruct (len (st_tokens s) =? 0).
    + constructor; [|constructor]. by intros w1 b1 [= <- _].
    + unfold load_global. destruct (G !! "RobertaTokenizer"%string); [|constructor].
      rewrite trace_bind. simpl.
      destruct (bool_decide _); (constructor; [|constructor]);
        by intros w1 b1 [= <- _].
  - destruct (result _) as [tokens_word|]; [|constructor].
    destruct (len tokens_word =? 0); [constructor|].
    rewrite trace_bind, trace_token_loop. simpl.
    destruct (result _) as [[[[? ?] ?] ?]|]; constructor.
Qed.

(** X12: on the slow path the tokenizer's [tokenize] is only ever called
    on words: strings that are not empty and hold no whitespace character
    of any kind.  Empty pieces, which runs of whitespace leave behind, are
    skipped without a call. *)
Theorem slow_path_tokenizes_words_only (text : pystr) (tokenizer : Tokenizer) :
  is_fast tokenizer = false ->
  Forall tokenizes_words_only
    (trace (tokenize_with_metadata module_globals text tokenizer)).
Proof.
  intros Hf. generalize module_globals. intros G.
  unfold tokenize_with_metadata. rewrite Hf. cbv zeta.
  rewrite trace_bind. apply Forall_app. split.
  2:{ destruct (result _) as [[[? ?] ?]|]; constructor. }
  unfold _words_to_tokens. rewrite trace_bind. apply Forall_app. split.
  2:{ destruct (result _); constructor. }
  apply trace_for_each_Forall. intros s [w off] Hin.
  apply elem_of_zip_l in Hin.
  eapply Forall_impl; [apply trace_word_body|].
  intros c Hc. destruct c; try exact I. simpl.
  destruct (Hc _ _ eq_refl) as [-> Hne]. split; [done|].
  by eapply words_without_whitespace.
Qed.

Lemma slow_path_tokenizes_words_only_witness :
  trace (tokenize_with_metadata module_globals
           ([9%N] ++ str "Berlin" ++ [10%N; 10%N] ++ str "is")
           whitespace_tokenizer) = [tokenizer_tokenize (str "Berlin") false] /\
  Forall tokenizes_words_only
    (trace (tokenize_with_metadata module_globals
              ([9%N] ++ str "Berlin" ++ [10%N; 10%N] ++ str "is")
              whitespace_tokenizer)).
Proof.
  split; [by vm_compute|].
  exact (slow_path_tokenizes_words_only
           ([9%N] ++ str "Berlin" ++ [10%N; 10%N] ++ str "is")
           whitespace_tokenizer eq_refl).
Defined.

(** ** The slow path as the module runs it *)

Lemma word_body_empty G tokenizer s w_off :
  result (word_body G tokenizer s ([], w_off)) =
    Ok {| st_idx := st_idx s + 1; st_tokens := st_tokens s;
          st_token_offsets := st_token_offsets s;
          st_start_of_word := st_start_of_word s |}.
Proof. unfold word_body. by rewrite result_bind, result_log_idx. Qed.

Lemma token_loop_returns tokenizer unk toks :
  special_tokens_map tokenizer !! str "unk_token" = Some unk ->
  forall st, exists r, result (for_each toks (token_body tokenizer) st) = Ok r.
Proof.
  intros Hunk. induction toks as [|tok toks IH]; intros st; [by eexists|].
  rewrite result_for_each_cons.
  destruct st as [[[w_off offs] sow] first].
  unfold token_body at 1. rewrite result_bind. unfold getitem. rewrite Hunk.
  cbn [result ret snd]. destruct first; cbn [result ret snd]; apply IH.
Qed.

(** The first word that yields tokens. *)
Lemma word_body_first G tokenizer s w w_off unk toks :
  special_tokens_map tokenizer !! str "unk_token" = Some unk ->
  st_tokens s = [] -> w <> [] -> toks <> [] ->
  tokenize tokenizer w false = Ok toks ->
  exists s' offs,
    result (word_body G tokenizer s (w, w_off)) = Ok s' /\
    st_tokens s' = toks /\
    st_token_offsets s' = st_token_offsets s ++ w_off :: offs /\
    length (w_off :: offs) = length toks /\
    st_start_of_word s' = st_start_of_word s ++ word_flags toks true.
Proof.
  intros Hunk Hs Hw Ht Htok.
  destruct (token_loop_returns tokenizer unk toks Hunk
              (w_off, st_token_offsets s, st_start_of_word s, true)) as [r Hr].
  pose proof Hr as Hshape.
  apply token_loop_result in Hshape as (w' & offs_new & -> & Hlen).
  assert (exists offs, offs_new = w_off :: offs) as [offs ->].
  { destruct toks as [|tok toks]; [done|].
    rewrite result_for_each_cons in Hr.
    destruct (result (token_body tokenizer _ tok)) as [s1|] eqn:E; [|done].
    apply token_body_result in E as [w1 ->].
    apply token_loop_result in Hr as (w2 & offs2 & Heq & _).
    inversion Heq as [[Hw2 Hoffs Hsow]].
    rewrite <- app_assoc in Hoffs. apply app_inv_head in Hoffs.
    by eexists. }
  exists {| st_idx := st_idx s + 1; st_tokens := toks;
            st_token_offsets := st_token_offsets s ++ w_off :: offs;
            st_start_of_word := st_start_of_word s ++ word_flags toks true |},
         offs.
  split; [|by repeat split].
  - unfold word_body. rewrite result_bind, result_log_idx, len_eqb_0.
    rewrite bool_decide_eq_false_2 by done.
    rewrite result_bind. cbn [st_tokens st_token_offsets st_start_of_word].
    rewrite Hs, (len_eqb_0 []), bool_decide_eq_true_2 by done.
    unfold extern at 1. cbn [result snd]. rewrite Htok.
    rewrite len_eqb_0, bool_decide_eq_false_2 by done.
    by rewrite result_bind, Hr.
Qed.

Lemma for_each_later_words G tokenizer : forall ws k s,
  G !! "RobertaTokenizer"%string = None ->
  st_tokens s <> [] ->
  match result (for_each (zip ws (word_offsets_from k ws))
                  (word_body G tokenizer) s) with
  | Ok s' =>
      Forall (fun w => w = []) ws /\
      st_tokens s' = st_tokens s /\
      st_token_offsets s' = st_token_offsets s /\
      st_start_of_word s' = st_start_of_word s
  | Raise e => e = NameError "RobertaTokenizer" /\ Exists (fun w => w <> []) ws
  end.
Proof.
  induction ws as [|w ws IH]; intros k s HG Hs.
  - simpl. by repeat split.
  - cbn [word_offsets_from zip zip_with]. rewrite result_for_each_cons.
    destruct w as [|c w].
    + rewrite word_body_empty.
      specialize (IH (k + (len (@nil N) + 1))
                    {| st_idx := st_idx s + 1; st_tokens := st_tokens s;
                       st_token_offsets := st_token_offsets s;
                       st_start_of_word := st_start_of_word s |} HG Hs).
      destruct (result _) as [s'|e].
      * destruct IH as (Hall & ? & ? & ?). by repeat split; [constructor|..].
      * destruct IH as [-> Hex]. split; [done|]. by right.
    + rewrite word_body_later_word_unbound by done.
      split; [done|]. by left.
Qed.

Lemma blank_words text :
  Forall (fun c => is_space c = true) text ->
  Forall (fun w => w = []) (split_space (sub_whitespace text)).
Proof.
  intros Hblank. apply Forall_forall. intros w Hw.
  destruct w as [|c w]; [done|]. exfalso.
  pose proof (words_without_whitespace _ _ Hw) as Hns.
  inversion Hns as [|? ? Hc _]; subst.
  assert (c ∈ sub_whitespace text) as Hin
    by (eapply split_space_elem_of; [exact Hw|by left]).
  unfold sub_whitespace in Hin. apply list_elem_of_In, in_map_iff in Hin
    as (c0 & Hc0 & Hin0).
  apply list_elem_of_In in Hin0. rewrite Forall_forall in Hblank.
  rewrite (Hblank c0 Hin0) in Hc0. subst c. done.
Qed.

Lemma for_each_empty_words G tokenizer : forall ws k s,
  Forall (fun w => w = []) ws ->
  exists s',
    result (for_each (zip ws (word_offsets_from k ws))
              (word_body G tokenizer) s) = Ok s' /\
    st_tokens s' = st_tokens s /\
    st_token_offsets s' = st_token_offsets s /\
    st_start_of_word s' = st_start_of_word s.
Proof.
  induction ws as [|w ws IH]; intros k s Hall; [by eexists|].
  inversion Hall as [|? ? -> Hall']; subst.
  cbn [word_offsets_from zip zip_with]. rewrite result_for_each_cons.
  rewrite word_body_empty.
  destruct (IH (k + (len (@nil N) + 1))
              {| st_idx := st_idx s + 1; st_tokens := st_tokens s;
                 st_token_offsets := st_token_offsets s;
                 st_start_of_word := st_start_of_word s |} Hall')
    as (s' & Hr & ? & ? & ?).
  by exists s'.
Qed.

(** X13: a text made of whitespace only (the empty text included) takes
    the slow path to an empty result: no tokens, no offsets, no flags, and
    the tokenizer's [tokenize] is not called at all. *)
Theorem slow_path_blank_text (text : pystr) (tokenizer : Tokenizer) :
  is_fast tokenizer = false ->
  Forall (fun c => is_space c = true) text ->
  result (tokenize_with_metadata module_globals text tokenizer) =
    Ok {| d_tokens := []; d_offsets := []; d_start_of_word := [] |} /\
  Forall (fun c => is_tokenize_call c = false)
    (trace (tokenize_with_metadata module_globals text tokenizer)).
Proof.
  intros Hf Hblank. generalize module_globals. intros G.
  pose proof (blank_words text Hblank) as Hall. split.
  - unfold tokenize_with_metadata. rewrite Hf. cbv zeta.
    rewrite result_bind. unfold _words_to_tokens. rewrite result_bind.
    destruct (for_each_empty_words G tokenizer _ 0
                {| st_idx := 0; st_tokens := []; st_token_offsets := [];
                   st_start_of_word := [] |} Hall)
      as (s' & -> & Ht & Ho & Hs).
    cbn [result ret snd]. by rewrite Ht, Ho, Hs.
  - unfold tokenize_with_metadata. rewrite Hf. cbv zeta.
    rewrite trace_bind. apply Forall_app. split.
    2:{ destruct (result _) as [[[? ?] ?]|]; constructor. }
    unfold _words_to_tokens. rewrite trace_bind. apply Forall_app. split.
    2:{ destruct (result _); constructor. }
    apply trace_for_each_Forall. intros s [w off] Hin.
    apply elem_of_zip_l in Hin.
    rewrite Forall_forall in Hall. specialize (Hall w Hin). subst w.
    eapply Forall_impl; [apply trace_word_body|].
    intros c Hc. destruct c; try done. by destruct (Hc _ _ eq_refl).
Qed.

Lemma slow_path_blank_text_witness :
  tokenize_with_metadata module_globals [32%N; 9%N; 10%N; 160%N]
    whitespace_tokenizer =
  ([], Ok {| d_tokens := []; d_offsets := []; d_start_of_word := [] |}).
Proof.
  pose proof (slow_path_blank_text [32%N; 9%N; 10%N; 160%N] whitespace_tokenizer
                eq_refl) as H.
  destruct H as [_ _]; [by repeat constructor|]. by vm_compute.
Defined.

Lemma for_each_first_words G tokenizer unk : forall ws k s,
  G !! "RobertaTokenizer"%string = None ->
  special_tokens_map tokenizer !! str "unk_token" = Some unk ->
  (forall w, w <> [] -> exists t ts, tokenize tokenizer w false = Ok (t :: ts)) ->
  st_tokens s = [] ->
  (2 <= length (filter (fun w => w <> []) ws))%nat ->
  result (for_each (zip ws (word_offsets_from k ws)) (word_body G tokenizer) s)
    = Raise (NameError "RobertaTokenizer").
Proof.
  induction ws as [|w ws IH]; intros k s HG Hunk Htok Hs Hn;
    [simpl in Hn; lia|].
  cbn [word_offsets_from zip zip_with]. rewrite result_for_each_cons.
  destruct w as [|c w].
  - rewrite word_body_empty. rewrite filter_cons_False in Hn by (by intros H).
    by apply IH.
  - rewrite filter_cons_True in Hn by done. simpl in Hn.
    destruct (Htok (c :: w)) as (t & ts & Ht); [done|].
    destruct (word_body_first G tokenizer s (c :: w) k unk (t :: ts))
      as (s' & offs & -> & Hs' & _); try done.
    pose proof (for_each_later_words G tokenizer ws
                  (k + (len (c :: w) + 1)) s' HG) as Hl.
    rewrite Hs' in Hl. specialize (Hl ltac:(done)).
    destruct (result _) as [s''|e].
    + destruct Hl as [Hall _].
      assert (filter (fun w : pystr => w <> []) ws = []) as Hf.
      { clear -Hall. induction Hall as [|? ? -> _ IH']; [done|].
        by rewrite filter_cons_False by (by intros H). }
      rewrite Hf in Hn. simpl in Hn. lia.
    + by destruct Hl as [-> _].
Qed.

(** X14: on the slow path, every text with two or more words raises
    [NameError] as soon as the tokenizer has returned a token for a word
    and another word follows: for a tokenizer that yields at least one
    token per word, nothing but single-word texts can be tokenized. *)
Theorem slow_path_two_words_NameError (text : pystr) (tokenizer : Tokenizer) :
  is_fast tokenizer = false ->
  is_Some (special_tokens_map tokenizer !! str "unk_token") ->
  (forall w, w <> [] -> exists t ts, tokenize tokenizer w false = Ok (t :: ts)) ->
  (2 <= length (filter (fun w => w <> []) (split_space (sub_whitespace text))))%nat ->
  result (tokenize_with_metadata module_globals text tokenizer) =
    Raise (NameError "RobertaTokenizer").
Proof.
  intros Hf [unk Hunk] Htok Hn.
  unfold tokenize_with_metadata. rewrite Hf. cbv zeta.
  rewrite result_bind. unfold _words_to_tokens. rewrite result_bind.
  by rewrite (for_each_first_words module_globals tokenizer unk _ 0
                {| st_idx := 0; st_tokens := []; st_token_offsets := [];
                   st_start_of_word := [] |}
                module_globals_RobertaTokenizer Hunk Htok eq_refl Hn).
Qed.

Lemma slow_path_two_words_NameError_witness :
  result (tokenize_with_metadata module_globals
            (str "Who lives" ++ [10%N] ++ str "in Berlin?") wordpiece_tokenizer) =
    Raise (NameError "RobertaTokenizer").
Proof.
  refine (slow_path_two_words_NameError
            (str "Who lives" ++ [10%N] ++ str "in Berlin?") wordpiece_tokenizer
            eq_refl _ _ _).
  - by exists (str "[UNK]").
  - intros [|c [|c' w]] Hw; [done|by eexists _, _|by eexists _, _].
  - vm_compute. lia.
Defined.

Lemma word_body_first_inv G tokenizer s w w_off s' :
  st_tokens s = [] ->
  result (word_body G tokenizer s (w, w_off)) = Ok s' ->
  (st_tokens s' = [] /\
   st_token_offsets s' = st_token_offsets s /\
   st_start_of_word s' = st_start_of_word s) \/
  (w <> [] /\
   exists toks offs,
     toks <> [] /\ tokenize tokenizer w false = Ok toks /\
     st_tokens s' = toks /\
     st_token_offsets s' = st_token_offsets s ++ w_off :: offs /\
     length (w_off :: offs) = length toks /\
     st_start_of_word s' = st_start_of_word s ++ word_flags toks true).
Proof.
  intros Hs. unfold word_body.
  rewrite result_bind, result_log_idx, len_eqb_0.
  case_bool_decide as Hw.
  { intros [= <-]. left. by rewrite Hs. }
  rewrite result_bind. cbn [st_tokens st_token_offsets st_start_of_word].
  rewrite Hs, (len_eqb_0 []), bool_decide_eq_true_2 by done.
  unfold extern at 1. cbn [result snd].
  destruct (tokenize tokenizer w false) as [toks|e] eqn:Htok; [|discriminate].
  rewrite len_eqb_0. case_bool_decide as Ht.
  { intros [= <-]. by left. }
  rewrite result_bind.
  destruct (result (for_each toks _ _)) as [r|e] eqn:Hr; [|discriminate].
  pose proof Hr as Hshape.
  apply token_loop_result in Hshape as (w' & offs_new & -> & Hlen).
  assert (exists offs, offs_new = w_off :: offs) as [offs ->].
  { destruct toks as [|tok toks]; [done|].
    rewrite result_for_each_cons in Hr.
    destruct (result (token_body tokenizer _ tok)) as [s1|] eqn:E; [|done].
    apply token_body_result in E as [w1 ->].
    apply token_loop_result in Hr as (w2 & offs2 & Heq & _).
    inversion Heq as [[Hw2 Hoffs Hsow]].
    rewrite <- app_assoc in Hoffs. apply app_inv_head in Hoffs.
    by eexists. }
  intros [= <-]. right. split; [done|]. exists toks, offs. by repeat split.
Qed.

Lemma for_each_returns_one_word G tokenizer : forall ws k s s',
  G !! "RobertaTokenizer"%string = None ->
  st_tokens s = [] ->
  result (for_each (zip ws (word_offsets_from k ws)) (word_body G tokenizer) s)
    = Ok s' ->
  (st_tokens s' = [] /\
   st_token_offsets s' = st_token_offsets s /\
   st_start_of_word s' = st_start_of_word s) \/
  exists (i : nat) w off toks offs,
    ws !! i = Some w /\ word_offsets_from k ws !! i = Some off /\
    w <> [] /\ toks <> [] /\ tokenize tokenizer w false = Ok toks /\
    st_tokens s' = toks /\
    st_token_offsets s' = st_token_offsets s ++ off :: offs /\
    length (off :: offs) = length toks /\
    st_start_of_word s' = st_start_of_word s ++ word_flags toks true.
Proof.
  induction ws as [|w ws IH]; intros k s s' HG Hs H.
  - simpl in H. inversion H; subst. by left.
  - cbn [word_offsets_from zip zip_with] in H. rewrite result_for_each_cons in H.
    destruct (result (word_body G tokenizer s (w, k))) as [s1|e] eqn:E1;
      [|discriminate].
    destruct (word_body_first_inv _ _ _ _ _ _ Hs E1)
      as [(Ht & Ho & Hf)|(Hw & toks & offs & Hne & Htok & Ht & Ho & Hl & Hf)].
    + destruct (IH _ _ _ HG Ht H)
        as [(Ht' & Ho' & Hf')|(i & w' & off & toks & offs & H')];
        [left; by rewrite Ho', Hf'|].
      right. exists (S i), w', off, toks, offs.
      destruct H' as (? & ? & ? & ? & ? & ? & ? & ? & ?).
      rewrite <- Ho, <- Hf. by repeat split.
    + right. exists 0%nat, w, k, toks, offs.
      pose proof (for_each_later_words G tokenizer ws (k + (len w + 1)) s1 HG)
        as Hl'.
      rewrite H, Ht in Hl'. destruct (Hl' Hne) as (_ & Ht' & Ho' & Hf').
      rewrite Ht', Ho', Hf', Ho, Hf. by repeat split.
Qed.

(** X15: whenever the slow path returns, what it returns comes from one
    word at most: either all three lists are empty, or the tokens are
    those the tokenizer gave for a single word of the text, the first
    offset is the place of that word in the normalised text, and the flags
    are [True] for the first token and [False] for every other one. *)
Theorem slow_path_returns_one_word (text : pystr) (tokenizer : Tokenizer)
    (d : tokenized_dict) :
  is_fast tokenizer = false ->
  result (tokenize_with_metadata module_globals text tokenizer) = Ok d ->
  d = {| d_tokens := []; d_offsets := []; d_start_of_word := [] |} \/
  exists w off toks offs,
    w <> [] /\ toks <> [] /\
    tokenize tokenizer w false = Ok toks /\
    0 <= off /\ slice (sub_whitespace text) off (length w) = w /\
    d_tokens d = map VStr toks /\
    d_offsets d = off :: offs /\
    length (d_offsets d) = length toks /\
    d_start_of_word d =
      map VBool (true :: replicate (length toks - 1) false).
Proof.
  intros Hf H.
  apply tokenize_with_metadata_slow in H as (toks & offs & sow & Hw & ->);
    [|done].
  unfold _words_to_tokens in Hw. rewrite result_bind in Hw.
  destruct (result (for_each _ _ _)) as [s'|e] eqn:E; [|discriminate].
  inversion Hw; subst. clear Hw.
  destruct (for_each_returns_one_word _ _ _ _
              {| st_idx := 0; st_tokens := []; st_token_offsets := [];
                 st_start_of_word := [] |} _
              module_globals_RobertaTokenizer eq_refl E)
    as [(Ht & Ho & Hs)|(i & w & off & toks & offs & Hi & Hoff & Hne & Htn & Htok &
                        Ht & Ho & Hl & Hs)];
    [left; by rewrite Ht, Ho, Hs|right].
  destruct (word_offsets_locate (sub_whitespace text) i w off Hi Hoff)
    as [H0 Hsl].
  exists w, off, toks, offs. rewrite Ht, Ho, Hs. simpl.
  repeat split; try done.
  destruct toks as [|t toks]; [done|]. simpl. by rewrite Nat.sub_0_r.
Qed.

Lemma slow_path_returns_one_word_witness :
  result (tokenize_with_metadata module_globals ([10%N; 9%N] ++ str "Berlin")
            wordpiece_tokenizer) =
    Ok {| d_tokens := map VStr [str "B"; str "##erlin"];
          d_offsets := [2; 3];
          d_start_of_word := map VBool [true; false] |} /\
  slice (sub_whitespace ([10%N; 9%N] ++ str "Berlin")) 2 6 = str "Berlin".
Proof.
  split; [by vm_compute|].
  destruct (slow_path_returns_one_word ([10%N; 9%N] ++ str "Berlin")
              wordpiece_tokenizer
              {| d_tokens := map VStr [str "B"; str "##erlin"];
                 d_offsets := [2; 3];
                 d_start_of_word := map VBool [true; false] |}
              eq_refl ltac:(by vm_compute))
    as [Hd|(w & off & toks & offs & _)]; by vm_compute.
Defined.

(** ** The fast path: flags, and encodings it cannot handle *)

Lemma ediff1d_lookup a : forall (i : nat) x y,
  a !! i = Some x -> a !! S i = Some y -> ediff1d a !! i = Some (y - x).
Proof.
  induction a as [|x0 a IH]; intros i x y Hx Hy; [done|].
  destruct a as [|y0 a]; [done|].
  change (ediff1d (x0 :: y0 :: a)) with ((y0 - x0) :: ediff1d (y0 :: a)).
  destruct i as [|i]; simpl in *.
  - by inversion Hx; inversion Hy; subst.
  - by apply IH.
Qed.

Lemma add_one_lookup a : forall r (i : nat) x,
  add_one a = Ok r -> a !! i = Some (Some x) -> r !! i = Some (x + 1).
Proof.
  induction a as [|[x0|] a IH]; intros r i x H Hi; simpl in H; try done.
  destruct (add_one a) as [r'|e]; [|discriminate]. inversion H; subst.
  destruct i as [|i]; simpl in *; [by inversion Hi|]. by eapply IH.
Qed.

Lemma add_one_None a : forall i : nat,
  a !! i = Some None -> add_one a = Raise TypeError.
Proof.
  induction a as [|[x0|] a IH]; intros [|i] Hi; simpl in *; try done.
  by rewrite (IH i Hi).
Qed.

Lemma add_one_Some_lookup a r (i : nat) o :
  add_one a = Ok r -> a !! i = Some o -> exists x, o = Some x.
Proof.
  intros H Hi. destruct o as [x|]; [by exists x|].
  by rewrite (add_one_None a i Hi) in H.
Qed.

Lemma fast_start_of_word_unfold x rest :
  (1 <= length rest)%nat ->
  result (fast_start_of_word (x :: rest)) =
  match add_one (<[length rest :=
                     default None ((Some (-1) :: rest) !! (length rest - 1)%nat)]>
                   (Some (-1) :: rest)) with
  | Ok w3 => Ok (0 :: ediff1d w3)
  | Raise e => Raise e
  end.
Proof.
  intros Hn. unfold fast_start_of_word.
  rewrite result_bind. cbn [result ret snd length].
  rewrite bool_decide_eq_false_2 by lia.
  rewrite !result_bind. unfold index.
  replace (S (length rest) - 2)%nat with (length rest - 1)%nat by lia.
  replace (S (length rest) - 1)%nat with (length rest) by lia.
  destruct ((Some (-1) :: rest) !! (length rest - 1)%nat) as [w|] eqn:Ew.
  2:{ apply lookup_ge_None in Ew. simpl in Ew. lia. }
  cbn [result ret snd lift default]. by destruct (add_one _).
Qed.

(** X16: on the fast path, past the first two positions and before the
    last one, the flag of a token is the difference between its word index
    and that of the token before it: 0 for a token that continues the
    word, positive for a token that opens the next word.  The flag of the
    last position is always 0. *)
Theorem fast_path_flags (text : pystr) (tokenizer : Tokenizer)
    (d : tokenized_dict) (be : BatchEncoding) (e : Encoding) :
  is_fast tokenizer = true ->
  encode_plus tokenizer (sub_whitespace text) true = Ok be ->
  head (encodings be) = Some e ->
  result (tokenize_with_metadata module_globals text tokenizer) = Ok d ->
  last (d_start_of_word d) = Some (VInt 0) /\
  forall (i : nat) wi wj,
    (2 <= i)%nat -> (S i < length (words e))%nat ->
    words e !! (i - 1)%nat = Some (Some wj) -> words e !! i = Some (Some wi) ->
    d_start_of_word d !! i = Some (VInt (wi - wj)).
Proof.
  intros Hf Hbe He H.
  apply tokenize_with_metadata_fast in H as (be' & e' & l & Hbe' & He' & Hl & ->);
    [|done].
  rewrite Hbe in Hbe'. inversion Hbe'; subst be'.
  rewrite He in He'. inversion He'; subst e'. clear Hbe' He'.
  pose proof Hl as Hw.
  apply fast_start_of_word_words in Hw as (x & rest & w3 & Hws & Hn & H3 & ->).
  rewrite Hws in *. simpl in Hn.
  replace (length (x :: rest) - 1)%nat with (length rest) in H3 by (simpl; lia).
  replace (length (x :: rest) - 2)%nat with (length rest - 1)%nat in H3
    by (simpl; lia).
  pose proof (add_one_length _ _ H3) as Hlen.
  rewrite length_insert in Hlen. simpl in Hlen.
  set (v := default None ((Some (-1) :: rest) !! (length rest - 1)%nat)) in *.
  assert ((<[length rest := v]> (Some (-1) :: rest)) !! length rest = Some v)
    as Hlast by (apply list_lookup_insert_eq; simpl; lia).
  assert ((<[length rest := v]> (Some (-1) :: rest)) !! (length rest - 1)%nat
          = Some v) as Hprev.
  { rewrite list_lookup_insert_ne by lia. subst v.
    destruct (_ !! (length rest - 1)%nat) eqn:E; [done|].
    apply lookup_ge_None in E. simpl in E. lia. }
  cbn [d_start_of_word]. split.
  - destruct (add_one_Some_lookup _ _ _ _ H3 Hlast) as [xv Hv].
    rewrite Hv in Hlast, Hprev, H3.
    pose proof (add_one_lookup _ _ _ _ H3 Hlast) as H1.
    pose proof (add_one_lookup _ _ _ _ H3 Hprev) as H2.
    change (map VInt (0 :: ediff1d w3)) with (VInt <$> (0 :: ediff1d w3)).
    rewrite fmap_last, last_lookup. simpl. rewrite ediff1d_length, Hlen. simpl.
    destruct (length rest) as [|n] eqn:En; [lia|]. simpl.
    replace (S n - 1)%nat with n in H2 by lia.
    rewrite (ediff1d_lookup _ _ _ _ H2 H1). simpl. do 2 f_equal. lia.
  - intros i wi wj Hi Hin Hj Hi'. simpl in Hin.
    assert ((<[length rest := v]> (Some (-1) :: rest)) !! i = Some (Some wi))
      as Hi2.
    { rewrite list_lookup_insert_ne by lia.
      destruct i; [lia|]. exact Hi'. }
    assert ((<[length rest := v]> (Some (-1) :: rest)) !! (i - 1)%nat
            = Some (Some wj)) as Hj2.
    { rewrite list_lookup_insert_ne by lia.
      destruct i as [|[|i]]; [lia|lia|]. exact Hj. }
    pose proof (add_one_lookup _ _ _ _ H3 Hi2) as H1.
    pose proof (add_one_lookup _ _ _ _ H3 Hj2) as H2.
    change (map VInt (0 :: ediff1d w3)) with (VInt <$> (0 :: ediff1d w3)).
    rewrite list_lookup_fmap. destruct i as [|i]; [lia|]. simpl.
    replace (S i - 1)%nat with i in H2 by lia.
    rewrite (ediff1d_lookup _ _ _ _ H2 H1). simpl. do 2 f_equal. lia.
Qed.

Lemma fast_path_flags_witness :
  result (tokenize_with_metadata module_globals (str "Berlin is a city")
            sample_fast_tokenizer) =
    Ok {| d_tokens := map VInt [101; 6; 2; 1; 4; 102];
          d_offsets := [0; 0; 7; 10; 12; 0];
          d_start_of_word := map VInt [0; 1; 1; 1; 1; 0] |}.
Proof.
  assert (result (tokenize_with_metadata module_globals (str "Berlin is a city")
                    sample_fast_tokenizer) =
          Ok {| d_tokens := map VInt [101; 6; 2; 1; 4; 102];
                d_offsets := [0; 0; 7; 10; 12; 0];
                d_start_of_word := map VInt [0; 1; 1; 1; 1; 0] |}) as H
    by (by vm_compute).
  destruct (fast_path_flags (str "Berlin is a city") sample_fast_tokenizer _
              (sample_encode (sub_whitespace (str "Berlin is a city")) true)
              {| words := [None; Some 0; Some 1; Some 2; Some 3; None];
                 tokens := [str "[CLS]"; str "Berlin"; str "is"; str "a";
                            str "city"; str "[SEP]"] |}
              eq_refl eq_refl ltac:(by vm_compute) H) as [_ _].
  exact H.
Defined.

(** X17: the fast path cannot handle an encoding of fewer than two
    positions (a tokenizer that adds no special tokens, on a text of no
    token or one): the sentinel adjustment indexes past the array and
    [IndexError] is raised. *)
Theorem fast_path_short_encoding (text : pystr) (tokenizer : Tokenizer)
    (be : BatchEncoding) (e : Encoding) :
  is_fast tokenizer = true ->
  encode_plus tokenizer (sub_whitespace text) true = Ok be ->
  head (encodings be) = Some e ->
  (length (words e) < 2)%nat ->
  result (tokenize_with_metadata module_globals text tokenizer) = Raise IndexError.
Proof.
  intros Hf Hbe He Hn. generalize module_globals. intros G.
  unfold tokenize_with_metadata. rewrite Hf, result_bind.
  unfold extern at 1. cbn [result snd]. rewrite Hbe.
  rewrite result_bind. unfold index.
  destruct (encodings be) as [|e' es]; [done|]. simpl in He. inversion He; subst e'.
  cbn [lookup list_lookup result ret snd]. rewrite result_bind.
  unfold fast_start_of_word.
  destruct (words e) as [|x [|y rest]]; [done| |simpl in Hn; lia].
  rewrite result_bind. cbn [result ret snd length].
  by rewrite bool_decide_eq_true_2 by lia.
Qed.

(** X18: the fast path cannot handle an encoding in which a token other
    than the first and the last has no source word (a special token in the
    middle, as between the two segments of a pair): adding 1 to the word
    indices raises [TypeError]. *)
Theorem fast_path_inner_special_token (text : pystr) (tokenizer : Tokenizer)
    (be : BatchEncoding) (e : Encoding) (i : nat) :
  is_fast tokenizer = true ->
  encode_plus tokenizer (sub_whitespace text) true = Ok be ->
  head (encodings be) = Some e ->
  (1 <= i)%nat -> (S i < length (words e))%nat ->
  words e !! i = Some None ->
  result (tokenize_with_metadata module_globals text tokenizer) = Raise TypeError.
Proof.
  intros Hf Hbe He Hi Hn Hw. generalize module_globals. intros G.
  unfold tokenize_with_metadata. rewrite Hf, result_bind.
  unfold extern at 1. cbn [result snd]. rewrite Hbe.
  rewrite result_bind. unfold index.
  destruct (encodings be) as [|e' es]; [done|]. simpl in He. inversion He; subst e'.
  cbn [lookup list_lookup result ret snd]. rewrite result_bind.
  destruct (words e) as [|x rest] eqn:Ew; [simpl in Hn; lia|]. simpl in Hn.
  rewrite fast_start_of_word_unfold by lia.
  rewrite (add_one_None _ i); [done|].
  rewrite list_lookup_insert_ne by lia.
  destruct i as [|i]; [lia|]. exact Hw.
Qed.

Lemma fast_path_short_encoding_witness :
  result (tokenize_with_metadata module_globals (str "Berlin")
            plain_fast_tokenizer) = Raise IndexError.
Proof.
  exact (fast_path_short_encoding (str "Berlin") plain_fast_tokenizer
           (sample_encode (sub_whitespace (str "Berlin")) false)
           {| words := [Some 0]; tokens := [str "Berlin"] |}
           eq_refl eq_refl eq_refl ltac:(simpl; lia)).
Defined.

Lemma fast_path_inner_special_token_witness :
  result (tokenize_with_metadata module_globals (str "Berlin is")
            pair_fast_tokenizer) = Raise TypeError.
Proof.
  exact (fast_path_inner_special_token (str "Berlin is") pair_fast_tokenizer
           (sample_encode_pair (sub_whitespace (str "Berlin is")))
           {| words := [None; Some 0; Some 1; None; Some 0; Some 1; None];
              tokens := [str "[CLS]"; str "Berlin"; str "is"; str "[SEP]";
                         str "Berlin"; str "is"; str "[SEP]"] |}
           3 eq_refl eq_refl eq_refl ltac:(lia) ltac:(simpl; lia) eq_refl).
Defined.

(** ** _get_start_of_word_QA *)

Lemma ediff1d_obj_Ok ws : forall l,
  ediff1d_obj ws = Ok l ->
  length l = pred (length ws) /\
  forall (i : nat) wj wi,
    ws !! i = Some (Some wj) -> ws !! S i = Some (Some wi) ->
    l !! i = Some (wi - wj).
Proof.
  induction ws as [|x ws IH]; intros l H.
  - inversion H. by split.
  - destruct ws as [|y ws].
    + inversion H. split; [done|]. by intros [|i] wj wi.
    + change (ediff1d_obj (x :: y :: ws)) with
        (match x, y, ediff1d_obj (y :: ws) with
         | Some x', Some y', Ok ds => Ok ((y' - x') :: ds)
         | _, _, _ => Raise TypeError
         end) in H.
      destruct x as [x'|]; [|done]. destruct y as [y'|]; [|done].
      destruct (ediff1d_obj (Some y' :: ws)) as [ds|] eqn:E; [|done].
      inversion H; subst. destruct (IH ds eq_refl) as [Hlen Hlk].
      split; [simpl in *; by rewrite Hlen|].
      intros [|i] wj wi Hj Hi; simpl in *.
      * by inversion Hj; inversion Hi; subst.
      * by apply Hlk.
Qed.

Lemma ediff1d_obj_None ws : forall i : nat,
  (2 <= length ws)%nat -> ws !! i = Some None ->
  ediff1d_obj ws = Raise TypeError.
Proof.
  induction ws as [|x ws IH]; intros i Hn Hi; [done|].
  destruct ws as [|y ws]; [simpl in Hn; lia|].
  change (ediff1d_obj (x :: y :: ws)) with
    (match x, y, ediff1d_obj (y :: ws) with
     | Some x', Some y', Ok ds => Ok ((y' - x') :: ds)
     | _, _, _ => Raise TypeError
     end).
  destruct x as [x'|]; [|done]. destruct y as [y'|]; [|done].
  destruct i as [|[|i]]; [done|done|].
  destruct ws as [|z ws]; [done|].
  rewrite (IH (S i)); [done|simpl; lia|exact Hi].
Qed.

(** X19: for word indices that are all present, [_get_start_of_word_QA]
    returns the flag 1 followed, for every later token, by the difference
    between its word index and that of the token before it.  The list has
    one flag per token, except for an encoding without tokens, for which
    it still holds the leading 1. *)
Theorem get_start_of_word_QA_flags (word_ids : list (option Z)) :
  Forall is_Some word_ids ->
  exists l,
    _get_start_of_word_QA word_ids = ([], Ok l) /\
    head l = Some 1 /\
    length l = Nat.max 1 (length word_ids) /\
    forall (i : nat) wj wi,
      word_ids !! i = Some (Some wj) -> word_ids !! S i = Some (Some wi) ->
      l !! S i = Some (wi - wj).
Proof.
  intros Hall. destruct (ediff1d_obj_all_words _ Hall) as [ds Hds].
  exists (1 :: ds). destruct (ediff1d_obj_Ok _ _ Hds) as [Hlen Hlk].
  split; [|split; [done|split]].
  - unfold _get_start_of_word_QA, lift. by rewrite Hds.
  - simpl. rewrite Hlen. destruct word_ids; simpl; lia.
  - intros i wj wi Hj Hi. simpl. by eapply Hlk.
Qed.

Lemma get_start_of_word_QA_flags_witness :
  _get_start_of_word_QA [Some 0; Some 0; Some 1; Some 3] = ([], Ok [1; 0; 1; 2]) /\
  _get_start_of_word_QA [] = ([], Ok [1]).
Proof.
  destruct (get_start_of_word_QA_flags [Some 0; Some 0; Some 1; Some 3])
    as (l & Hl & _); [by repeat constructor|].
  destruct (get_start_of_word_QA_flags []) as (l' & Hl' & _); [constructor|].
  split; by vm_compute.
Defined.

(** X20: when two or more word indices are given and one of them is
    missing ([None], a special token), [_get_start_of_word_QA] raises
    [TypeError]: the QA path relies on encodings made without special
    tokens. *)
Theorem get_start_of_word_QA_special_token (word_ids : list (option Z)) (i : nat) :
  (2 <= length word_ids)%nat -> word_ids !! i = Some None ->
  _get_start_of_word_QA word_ids = ([], Raise TypeError).
Proof.
  intros Hn Hi. unfold _get_start_of_word_QA, lift.
  by rewrite (ediff1d_obj_None _ i Hn Hi).
Qed.

Lemma get_start_of_word_QA_special_token_witness :
  _get_start_of_word_QA [None; Some 0; Some 1; None] = ([], Raise TypeError).
Proof.
  exact (get_start_of_word_QA_special_token [None; Some 0; Some 1; None] 0
           ltac:(simpl; lia) eq_refl).
Defined.

(** ** tokenize_batch_question_answering: preconditions, ids, calls *)

(** X21: a list of indices whose length differs from that of the batch,
    or a tokenizer that is not fast, fails the assertion at once: the
    function raises [AssertionError] and has called nothing, the tokenizer
    included. *)
Theorem batch_assertions (pre_baskets : list PreBasket) (tokenizer : Tokenizer)
    (indices : list Z) :
  length indices <> length pre_baskets \/ is_fast tokenizer = false ->
  tokenize_batch_question_answering pre_baskets tokenizer indices =
    ([], Raise AssertionError).
Proof.
  intros H. unfold tokenize_batch_question_answering.
  destruct (decide (length indices = length pre_baskets)) as [Heq|Hne].
  - destruct H as [H|H]; [done|].
    rewrite bool_decide_eq_true_2 by done. by rewrite H.
  - by rewrite bool_decide_eq_false_2 by done.
Qed.

Lemma batch_assertions_witness :
  tokenize_batch_question_answering sample_batch_a sample_fast_tokenizer [10; 11]
    = ([], Raise AssertionError) /\
  tokenize_batch_question_answering sample_batch_a whitespace_tokenizer [10]
    = ([], Raise AssertionError).
Proof.
  split.
  - apply (batch_assertions sample_batch_a sample_fast_tokenizer [10; 11]).
    left. simpl. lia.
  - apply (batch_assertions sample_batch_a whitespace_tokenizer [10]).
    by right.
Defined.

Lemma enumerate_lookup {A} (l : list A) (i : nat) x :
  (i, x) ∈ enumerate l -> l !! i = Some x.
Proof.
  unfold enumerate. intros H. apply list_elem_of_lookup in H as [k Hk].
  apply lookup_zip_with_Some in Hk as (i' & x' & Heq & Hi & Hx).
  inversion Heq; subst. apply lookup_seq in Hi as [-> _]. exact Hx.
Qed.

Lemma enumerate_NoDup {A} (l : list A) : NoDup (enumerate l).
Proof. unfold enumerate. apply NoDup_zip_l, NoDup_seq. Qed.

Lemma concat_map_bind {A B} (g : A -> list B) (l : list A) :
  concat (map g l) = l ≫= g.
Proof. induction l as [|x l IH]; [done|]. simpl. by rewrite IH. Qed.

Lemma qa_pairs_elem_of pre_baskets p :
  p ∈ qa_pairs pre_baskets ->
  p.1 ∈ enumerate pre_baskets /\ p.2 ∈ enumerate (qas p.1.2).
Proof.
  unfold qa_pairs. rewrite concat_map_bind. intros H.
  apply list_elem_of_bind in H as (x & Hp & Hx).
  apply list_elem_of_In, in_map_iff in Hp as (iq & <- & Hiq).
  apply list_elem_of_In in Hiq. by split.
Qed.

Lemma qa_pairs_NoDup pre_baskets : NoDup (qa_pairs pre_baskets).
Proof.
  unfold qa_pairs. rewrite concat_map_bind. apply NoDup_bind.
  - intros x1 x2 y _ _ H1 H2.
    apply list_elem_of_In, in_map_iff in H1 as (iq1 & <- & _).
    apply list_elem_of_In, in_map_iff in H2 as (iq2 & Heq & _).
    by inversion Heq.
  - intros x _.
    assert (Inj (=) (=) (fun iq : nat * QA => (x, iq))) as Hinj
      by (by intros ? ? [= ->]).
    apply (NoDup_fmap_2 _), enumerate_NoDup.
  - apply enumerate_NoDup.
Qed.

(** X22: when the indices assigned to the documents of a batch are pairwise
    distinct, so are the internal ids of the baskets of the run: no two
    baskets of a batch share an id. *)
Theorem internal_ids_unique (pre_baskets : list PreBasket)
    (tokenizer : Tokenizer) (indices : list Z) (bs : list SampleBasket) :
  NoDup indices ->
  result (tokenize_batch_question_answering pre_baskets tokenizer indices) = Ok bs ->
  NoDup (map id_internal bs).
Proof.
  intros Hnd H.
  apply tokenize_batch_question_answering_result in H
    as (_ & _ & tdb & _ & HF).
  change (map id_internal bs) with (id_internal <$> bs).
  apply NoDup_alt. intros n m x Hn Hm.
  rewrite list_lookup_fmap in Hn, Hm.
  destruct (bs !! n) as [b1|] eqn:E1; [|done].
  destruct (bs !! m) as [b2|] eqn:E2; [|done].
  simpl in Hn, Hm. inversion Hn; inversion Hm; subst x. clear Hn Hm.
  destruct (Forall2_lookup_r _ _ _ _ _ HF E1)
    as ([[i1 d1] [j1 q1]] & Hp1 & Hb1).
  destruct (Forall2_lookup_r _ _ _ _ _ HF E2)
    as ([[i2 d2] [j2 q2]] & Hp2 & Hb2).
  destruct Hb1 as (x1 & tq1 & Hx1 & Hid1 & _).
  destruct Hb2 as (x2 & tq2 & Hx2 & Hid2 & _).
  rewrite Hid1, Hid2 in *.
  match goal with H : internal_id_of _ _ = internal_id_of _ _ |- _ =>
    apply internal_id_of_inj in H as [Hxe Hje] end.
  subst x2 j2.
  assert (i1 = i2) as Hie by (by eapply (proj1 (NoDup_alt indices) Hnd)).
  subst i2.
  assert (((i1, d1), (j1, q1)) ∈ qa_pairs pre_baskets) as Hin1
    by (apply list_elem_of_lookup; by exists n).
  assert (((i1, d2), (j1, q2)) ∈ qa_pairs pre_baskets) as Hin2
    by (apply list_elem_of_lookup; by exists m).
  apply qa_pairs_elem_of in Hin1 as [Hd1 Hq1].
  apply qa_pairs_elem_of in Hin2 as [Hd2 Hq2]. simpl in *.
  apply enumerate_lookup in Hd1, Hd2. rewrite Hd1 in Hd2. inversion Hd2; subst d2.
  apply enumerate_lookup in Hq1, Hq2. rewrite Hq1 in Hq2. inversion Hq2; subst q2.
  by eapply (proj1 (NoDup_alt (qa_pairs pre_baskets)) (qa_pairs_NoDup _)).
Qed.

Lemma internal_ids_unique_witness :
  exists bs,
    result (tokenize_batch_question_answering
              [sample_doc_two_questions; sample_doc_one_question]
              sample_fast_tokenizer [10; 11]) = Ok bs /\
    map id_internal bs = [str "10-0"; str "10-1"; str "11-0"] /\
    NoDup (map id_internal bs).
Proof.
  eexists. split; [vm_compute; reflexivity|]. split; [by vm_compute|].
  refine (internal_ids_unique
            [sample_doc_two_questions; sample_doc_one_question]
            sample_fast_tokenizer [10; 11] _ _ _).
  - eapply bool_decide_unpack. by vm_compute.
  - vm_compute. reflexivity.
Defined.

Lemma Forall2_map_eq {A B C} (f : B -> C) (g : A -> C) ps bs :
  Forall2 (fun p b => f b = g p) ps bs -> map f bs = map g ps.
Proof. induction 1 as [|p b ps bs H _ IH]; [done|]. simpl. by rewrite H, IH. Qed.

Lemma qa_pairs_map {C} (h : PreBasket -> QA -> C) pre_baskets :
  map (fun p => h p.1.2 p.2.2) (qa_pairs pre_baskets) =
  concat (map (fun d => map (h d) (qas d)) pre_baskets).
Proof.
  unfold qa_pairs, enumerate at 2. generalize 0%nat.
  induction pre_baskets as [|d pre IH]; intros k; [done|].
  simpl. rewrite map_app, map_map. simpl. rewrite IH. f_equal.
  rewrite <- (enumerate_snd (qas d)) at 2. by rewrite map_map.
Qed.

(** X23: the baskets of a run follow the questions of the batch, document
    by document and question by question: each basket carries the text of
    its document and the external id, the text and the answers of its
    question, unchanged; a document with several questions has its text in
    as many baskets. *)
Theorem baskets_follow_questions (pre_baskets : list PreBasket)
    (tokenizer : Tokenizer) (indices : list Z) (bs : list SampleBasket) :
  result (tokenize_batch_question_answering pre_baskets tokenizer indices) = Ok bs ->
  map (fun b => (document_text (raw b), id_external b, question_text (raw b),
                 raw_answers (raw b))) bs =
  concat (map (fun d => map (fun q => (context d, id q, question q, answers q))
                          (qas d)) pre_baskets).
Proof.
  intros H.
  apply tokenize_batch_question_answering_result in H
    as (_ & _ & tdb & _ & HF).
  rewrite <- (qa_pairs_map (fun d q => (context d, id q, question q, answers q))).
  apply Forall2_map_eq. eapply Forall2_impl; [exact HF|].
  intros [[i d] [j q]] b (x & tq & _ & _ & He & _ & Hd & _ & _ & _ & Hq & _ & _ & Ha & _).
  simpl. by rewrite He, Hd, Hq, Ha.
Qed.

Lemma baskets_follow_questions_witness :
  exists bs,
    result (tokenize_batch_question_answering
              [sample_doc_two_questions; sample_doc_one_question]
              sample_fast_tokenizer [10; 11]) = Ok bs /\
    map (fun b => question_text (raw b)) bs =
      [str "What is Berlin"; str "Where is Berlin"; str "What is Paris"].
Proof.
  eexists. split; [vm_compute; reflexivity|].
  pose proof (baskets_follow_questions
                [sample_doc_two_questions; sample_doc_one_question]
                sample_fast_tokenizer [10; 11] _ ltac:(vm_compute; reflexivity))
    as H.
  by vm_compute.
Defined.

Lemma trace_for_each_Ok {A S} (f : A -> list call) (xs : list A)
    (body : S -> A -> M S) :
  (forall s x s1, x ∈ xs -> result (body s x) = Ok s1 -> trace (body s x) = f x) ->
  forall acc s', result (for_each xs body acc) = Ok s' ->
  trace (for_each xs body acc) = concat (map f xs).
Proof.
  induction xs as [|x xs IH]; intros Hstep acc s' H; [done|].
  rewrite result_for_each_cons in H. simpl. rewrite trace_bind.
  destruct (result (body acc x)) as [s1|e] eqn:E; [|discriminate].
  rewrite (Hstep _ _ _ ltac:(by left) E). f_equal.
  eapply IH; [|exact H]. intros s x' s2 Hin. apply Hstep. by right.
Qed.

Lemma trace_index {A} (l : list A) i : trace (index l i) = [].
Proof. unfold index. by destruct (l !! i). Qed.

Lemma trace_get_start_of_word_QA ws : trace (_get_start_of_word_QA ws) = [].
Proof. unfold _get_start_of_word_QA, lift. by destruct (ediff1d_obj ws). Qed.

Lemma trace_question_body tokenizer indices tdb tb ob sb i_doc dt baskets i_q q :
  trace (question_body tokenizer indices tdb tb ob sb i_doc dt baskets (i_q, q))
    = [tokenizer_encode_plus (question q) false].
Proof.
  unfold question_body. rewrite trace_bind. unfold extern.
  cbn [trace result fst snd].
  destruct (encode_plus tokenizer (question q) false) as [tq|e]; [|done].
  repeat (rewrite trace_bind, ?trace_index, ?trace_get_start_of_word_QA;
          cbn [app];
          match goal with
          | |- context [result ?m] => destruct (result m); [|done]
          end).
  done.
Qed.

(** X24: a run that returns has called the tokenizer once for the whole
    batch, with the texts of the documents in order, and then once per
    question, in order, without special tokens; it has called nothing
    else. *)
Theorem batch_calls (pre_baskets : list PreBasket) (tokenizer : Tokenizer)
    (indices : list Z) (bs : list SampleBasket) :
  result (tokenize_batch_question_answering pre_baskets tokenizer indices) = Ok bs ->
  trace (tokenize_batch_question_answering pre_baskets tokenizer indices) =
    tokenizer_batch_encode_plus (map context pre_baskets) ::
    map (fun q => tokenizer_encode_plus (question q) false)
        (concat (map qas pre_baskets)).
Proof.
  unfold tokenize_batch_question_answering.
  rewrite result_bind, trace_bind.
  destruct (assert _) as [t1 [[]|e]] eqn:E1; cbn [result trace fst snd];
    [|discriminate].
  assert (t1 = []) as -> by (unfold assert in E1; destruct (bool_decide _);
                             inversion E1; done).
  rewrite result_bind, trace_bind.
  destruct (assert (is_fast tokenizer)) as [t2 [[]|e]] eqn:E2;
    cbn [result trace fst snd]; [|discriminate].
  assert (t2 = []) as -> by (unfold assert in E2; destruct (is_fast _);
                             inversion E2; done).
  rewrite result_bind, trace_bind. unfold extern.
  cbn [result trace fst snd app].
  destruct (batch_encode_plus tokenizer (map context pre_baskets)) as [tdb|e];
    [|discriminate].
  rewrite result_bind, trace_bind.
  match goal with
  | |- context [trace (for_each (batch_encodings tdb) ?b ?a)] =>
      assert (trace (for_each (batch_encodings tdb) b a) = []) as ->
  end.
  { match goal with
    | |- trace ?m = [] =>
        assert (Forall (fun _ => False) (trace m)) as HF;
          [|by destruct (trace m); [|inversion HF]]
    end.
    apply trace_for_each_Forall. intros s x _.
    rewrite trace_bind, trace_get_start_of_word_QA.
    destruct (result _); constructor. }
  destruct (result (for_each (batch_encodings tdb) _ _)) as [sb|e];
    [|discriminate].
  intros H. cbn [app]. f_equal.
  assert (forall (s : list SampleBasket) (x : nat * PreBasket) s1,
            x ∈ enumerate pre_baskets ->
            result (document_body tokenizer indices tdb (batch_input_ids tdb)
                      (map (map fst) (batch_offset_mapping tdb)) sb s x) = Ok s1 ->
            trace (document_body tokenizer indices tdb (batch_input_ids tdb)
                     (map (map fst) (batch_offset_mapping tdb)) sb s x) =
              map (fun q => tokenizer_encode_plus (question q) false) (qas x.2))
    as Hdoc.
  { intros s [i_doc d] s1 _ Hs. unfold document_body in *.
    rewrite (trace_for_each_Ok
               (fun iq : nat * QA => [tokenizer_encode_plus (question iq.2) false])
               _ _ (fun s0 iq s2 _ _ =>
                      match iq with
                      | (i_q, q) => trace_question_body _ _ _ _ _ _ _ _ s0 i_q q
                      end) _ _ Hs).
    simpl. rewrite <- (enumerate_snd (qas d)) at 2. rewrite map_map.
    generalize (enumerate (qas d)). intros l.
    induction l as [|a l IH]; [done|]. simpl. by rewrite IH. }
  rewrite (trace_for_each_Ok _ _ _ Hdoc _ _ H).
  rewrite <- (enumerate_snd pre_baskets) at 2.
  by rewrite concat_map, !map_map.
Qed.

Lemma batch_calls_witness :
  trace (tokenize_batch_question_answering
           [sample_doc_two_questions; sample_doc_one_question]
           sample_fast_tokenizer [10; 11]) =
    [tokenizer_batch_encode_plus [str "Berlin is a city"; str "Paris is a city"];
     tokenizer_encode_plus (str "What is Berlin") false;
     tokenizer_encode_plus (str "Where is Berlin") false;
     tokenizer_encode_plus (str "What is Paris") false].
Proof.
  destruct (result (tokenize_batch_question_answering
                      [sample_doc_two_questions; sample_doc_one_question]
                      sample_fast_tokenizer [10; 11])) as [bs|e] eqn:E;
    [|vm_compute in E; discriminate].
  exact (batch_calls [sample_doc_two_questions; sample_doc_one_question]
           sample_fast_tokenizer [10; 11] bs E).
Defined.

(** ** _words_to_tokens on one word *)

Lemma token_loop_exact tokenizer unk :
  special_tokens_map tokenizer !! str "unk_token" = Some unk ->
  forall toks w_off offs sow first,
  exists w_end,
    result (for_each toks (token_body tokenizer) (w_off, offs, sow, first)) =
      Ok (w_end, offs ++ token_offsets_from unk w_off toks,
          sow ++ word_flags toks first,
          match toks with [] => first | _ => false end).
Proof.
  intros Hunk. induction toks as [|tok toks IH]; intros w_off offs sow first.
  - exists w_off. simpl. by rewrite !app_nil_r.
  - rewrite result_for_each_cons. unfold token_body at 1.
    rewrite result_bind. unfold getitem. rewrite Hunk. cbn [result ret snd].
    set (w1 := if bool_decide (strip_special tok = unk) then w_off + 1
               else w_off + len (strip_special tok)).
    destruct (IH w1 (offs ++ [w_off]) (sow ++ [first]) false) as [w_end Hr].
    exists w_end.
    assert (result (if first
                    then ret (w1, offs ++ [w_off], sow ++ [true], false)
                    else ret (w1, offs ++ [w_off], sow ++ [false], first))
            = Ok (w1, offs ++ [w_off], sow ++ [first], false)) as ->
      by (by destruct first).
    rewrite Hr. rewrite <- !app_assoc. simpl. fold w1.
    repeat f_equal; by destruct toks.
Qed.

(** X25: for a single word, [_words_to_tokens] returns the tokens the
    tokenizer gave for it; the first token gets the offset of the word and
    each later one the offset before it advanced by the length of the
    previous token without its marker ([##], U+0120 or U+2581), or by 1
    when the previous token is the unknown token; only the first token is
    flagged as a word start. *)
Theorem words_to_tokens_single_word (tokenizer : Tokenizer) (w : pystr)
    (w_off : Z) (unk : pystr) (toks : list pystr) :
  special_tokens_map tokenizer !! str "unk_token" = Some unk ->
  w <> [] -> toks <> [] ->
  tokenize tokenizer w false = Ok toks ->
  result (_words_to_tokens module_globals [w] [w_off] tokenizer) =
    Ok (toks, token_offsets_from unk w_off toks,
        true :: replicate (length toks - 1) false).
Proof.
  intros Hunk Hw Ht Htok. generalize module_globals. intros G.
  unfold _words_to_tokens. rewrite result_bind.
  cbn [zip zip_with]. rewrite result_for_each_cons.
  unfold word_body. rewrite result_bind, result_log_idx, len_eqb_0.
  rewrite bool_decide_eq_false_2 by done.
  rewrite result_bind. cbn [st_tokens st_token_offsets st_start_of_word].
  rewrite (len_eqb_0 []), bool_decide_eq_true_2 by done.
  unfold extern at 1. cbn [result snd]. rewrite Htok.
  rewrite len_eqb_0, bool_decide_eq_false_2 by done.
  rewrite result_bind.
  destruct (token_loop_exact tokenizer unk Hunk toks w_off [] [] true)
    as [w_end ->].
  cbn [result ret snd for_each st_tokens st_token_offsets st_start_of_word app].
  destruct toks as [|t toks]; [done|]. simpl. by rewrite Nat.sub_0_r.
Qed.

Lemma words_to_tokens_single_word_witness :
  result (_words_to_tokens module_globals [str "Berlin"] [7] wordpiece_tokenizer) =
    Ok ([str "B"; str "##erlin"], [7; 8], [true; false]) /\
  result (_words_to_tokens module_globals [str "Berlin"] [7]
            unknown_word_tokenizer) =
    Ok ([str "[UNK]"; str "##erlin"], [7; 8], [true; false]).
Proof.
  split.
  - exact (words_to_tokens_single_word wordpiece_tokenizer (str "Berlin") 7
             (str "[UNK]") [str "B"; str "##erlin"] eq_refl
             ltac:(done) ltac:(done) eq_refl).
  - exact (words_to_tokens_single_word unknown_word_tokenizer (str "Berlin") 7
             (str "[UNK]") [str "[UNK]"; str "##erlin"] eq_refl
             ltac:(done) ltac:(done) eq_refl).
Defined.

(** X26: a tokenizer whose [special_tokens_map] has no ["unk_token"]
    cannot be used on the slow path: the first token of the first word
    that yields tokens raises [KeyError]. *)
Theorem words_to_tokens_no_unk_token (tokenizer : Tokenizer) (w : pystr)
    (w_off : Z) (ws : list pystr) (offs : list Z) (t : pystr) (ts : list pystr) :
  special_tokens_map tokenizer !! str "unk_token" = None ->
  w <> [] ->
  tokenize tokenizer w false = Ok (t :: ts) ->
  result (_words_to_tokens module_globals (w :: ws) (w_off :: offs) tokenizer) =
    Raise KeyError.
Proof.
  intros Hunk Hw Htok. generalize module_globals. intros G.
  unfold _words_to_tokens. rewrite result_bind.
  cbn [zip zip_with]. rewrite result_for_each_cons.
  unfold word_body. rewrite result_bind, result_log_idx, len_eqb_0.
  rewrite bool_decide_eq_false_2 by done.
  rewrite result_bind. cbn [st_tokens st_token_offsets st_start_of_word].
  rewrite (len_eqb_0 []), bool_decide_eq_true_2 by done.
  unfold extern at 1. cbn [result snd]. rewrite Htok.
  rewrite len_eqb_0, bool_decide_eq_false_2 by done.
  rewrite result_bind, result_for_each_cons.
  unfold token_body at 1. rewrite result_bind. unfold getitem. by rewrite Hunk.
Qed.

Lemma words_to_tokens_no_unk_token_witness :
  result (_words_to_tokens module_globals [str "Berlin"; str "is"] [0; 7]
            no_unk_tokenizer) = Raise KeyError /\
  result (tokenize_with_metadata module_globals (str "Berlin is")
            no_unk_tokenizer) = Raise KeyError.
Proof.
  split; [|by vm_compute].
  exact (words_to_tokens_no_unk_token no_unk_tokenizer (str "Berlin") 0
           [str "is"] [7] (str "Berlin") [] eq_refl ltac:(done) eq_refl).
Defined.
